(** * The content generation service of the marketing backend

    A shallow embedding of [AIService] (services/ai.ts) and of the count
    validation of the variations route (routes/ai.ts).

    - JavaScript strings are sequences of UTF-16 code units: [list N].
    - JavaScript numbers are IEEE 754 binary64 values: the primitive [float].
    - An [async] method is a computation that submits texts to the model
      provider and ends in a settled promise.  The provider is an oracle
      indexed by the issuance number of the call; the texts submitted are
      logged in issuance order. *)

From Stdlib Require Import ZArith NArith Floats Uint63 Ascii String DecimalString.
From stdpp Require Import base option list.

Set Warnings "-inexact-float".

(** ** The JavaScript built-ins the service uses *)

Module JS.

Definition codeunit := N.
Definition jsstring := list codeunit.

(** A string literal of the source (all literals of the service are ASCII). *)
Definition lit (s : string) : jsstring :=
  List.map N_of_ascii (list_ascii_of_string s).

Definition LF : codeunit := 10%N.
Definition SPACE : codeunit := 32%N.
Definition COMMA : codeunit := 44%N.
Definition HASH : codeunit := 35%N.

(** WhiteSpace and LineTerminator code points of ECMAScript, the ones
    [String.prototype.trim] strips. *)
Definition isWhiteSpace (c : codeunit) : bool :=
  ((9 <=? c) && (c <=? 13) || (c =? 32) || (c =? 160) || (c =? 5760)
   || (8192 <=? c) && (c <=? 8202) || (c =? 8232) || (c =? 8233)
   || (c =? 8239) || (c =? 8287) || (c =? 12288) || (c =? 65279))%N.

Fixpoint trimStart (s : jsstring) : jsstring :=
  match s with
  | c :: s' => if isWhiteSpace c then trimStart s' else s
  | [] => []
  end.

Definition trimEnd (s : jsstring) : jsstring := rev (trimStart (rev s)).

Definition trim (s : jsstring) : jsstring := trimEnd (trimStart s).

(** [s.split(sep)] for a separator of one code unit. *)
Fixpoint split (sep : codeunit) (s : jsstring) : list jsstring :=
  match s with
  | [] => [[]]
  | c :: s' =>
      if (c =? sep)%N then [] :: split sep s'
      else match split sep s' with
           | piece :: pieces => (c :: piece) :: pieces
           | [] => [[c]]
           end
  end.

(** [pieces.join(sep)]. *)
Fixpoint join (sep : jsstring) (pieces : list jsstring) : jsstring :=
  match pieces with
  | [] => []
  | [piece] => piece
  | piece :: rest => piece ++ sep ++ join sep rest
  end.

Fixpoint startsWith (s sub : jsstring) : bool :=
  match sub, s with
  | [], _ => true
  | d :: sub', c :: s' => (c =? d)%N && startsWith s' sub'
  | _ :: _, [] => false
  end.

(** [s.includes(sub)]. *)
Fixpoint includes (s sub : jsstring) : bool :=
  startsWith s sub ||
  match s with
  | [] => false
  | _ :: s' => includes s' sub
  end.

(** [s.replace(pat, '')] for a string pattern of one code unit: the first
    occurrence is removed, wherever it is. *)
Fixpoint removeFirst (pat : codeunit) (s : jsstring) : jsstring :=
  match s with
  | [] => []
  | c :: s' => if (c =? pat)%N then s' else c :: removeFirst pat s'
  end.

(** [/^[A-Z]/.test(s)]. *)
Definition testLeadingCapital (s : jsstring) : bool :=
  match s with
  | c :: _ => ((65 <=? c) && (c <=? 90))%N
  | [] => false
  end.

(** [array.slice(0, stop)] for an integral [stop]: a negative [stop] counts
    from the end of the array. *)
Definition slice0 {A} (stop : Z) (l : list A) : list A :=
  if (stop <? 0)%Z then take (Z.to_nat (Z.of_nat (length l) + stop)) l
  else take (Z.to_nat stop) l.

(** The number value of an array length or an array index; the conversion
    is exact below 2^53, and array lengths are below 2^32. *)
Definition Number_of_nat (n : nat) : float :=
  PrimFloat.of_uint63 (Uint63.of_Z (Z.of_nat n)).

(** [Math.min(x, y)]: NaN when an argument is NaN, and -0 below +0. *)
Definition Math_min (x y : float) : float :=
  if PrimFloat.is_nan x || PrimFloat.is_nan y then PrimFloat.nan
  else if PrimFloat.ltb x y then x
  else if PrimFloat.ltb y x then y
  else if PrimFloat.get_sign x then x else y.

(** Template-literal rendering of an integral number. *)
Definition Number_toString (z : Z) : jsstring :=
  lit (NilZero.string_of_int (Z.to_int z)).

(** The message of a thrown [Error]. *)
Record Error := mkError { message : jsstring }.

Inductive Promise (A : Type) : Type :=
  | Pending
  | Fulfilled (value : A)
  | Rejected (reason : Error).
Arguments Pending {A}.
Arguments Fulfilled {A} value.
Arguments Rejected {A} reason.

(** [Promise.all(promises)].  The input promises settle one by one, in the
    order [completion] lists their indices.  A fulfilment stores the value
    in the slot of its own index and counts it; the aggregate fulfils when
    every slot is counted, and rejects at the first rejection. *)
Fixpoint Promise_all_settle {A} (promises : list (Promise A))
    (completion : list nat) (values : list (option A)) (remaining : nat)
    : Promise (list A) :=
  match completion with
  | [] =>
      match remaining, mapM id values with
      | O, Some vs => Fulfilled vs
      | _, _ => Pending
      end
  | index :: later =>
      match promises !! index with
      | Some (Fulfilled v) =>
          Promise_all_settle promises later (<[index := Some v]> values)
                             (pred remaining)
      | Some (Rejected e) => Rejected e
      | Some Pending | None =>
          Promise_all_settle promises later values remaining
      end
  end.

Definition Promise_all {A} (promises : list (Promise A))
    (completion : list nat) : Promise (list A) :=
  Promise_all_settle promises completion
    (replicate (length promises) None) (length promises).

(** The states of a promise. *)
Definition settled {A} (p : Promise A) : Prop :=
  match p with
  | Pending => False
  | _ => True
  end.

Definition rejected {A} (p : Promise A) : Prop :=
  match p with
  | Rejected _ => True
  | _ => False
  end.

End JS.
Import JS.


(** ** Data model (services/ai.ts, lines 3-18) *)

Inductive ContentType := campaign | post | email | social.
Inductive Tone := professional | casual | enthusiastic | friendly.
Inductive Length := short | medium | long.
Inductive ImprovementType := engagement | clarity | seo | toneOfVoice.

Record GenerateContentRequest := mkRequest {
  prompt : jsstring;
  contentType : ContentType;
  tone : option Tone;
  length' : option Length;
  targetAudience : option jsstring;
  keywords : option (list jsstring)
}.

Record ContentSuggestion := mkSuggestion {
  content : jsstring;
  title : option jsstring;
  hashtags : option (list jsstring);
  confidence : float;
  alternatives : option (list jsstring)
}.

(** What [model.generateContent] does with a submitted text: the call
    rejects (network error, timeout, quota), or resolves to a response
    with candidates, each a list of content parts whose [text] may be
    missing. *)
Inductive ProviderResponse :=
  | ProviderRejects
  | ProviderResolves (candidates : list (list (option jsstring))).

(** [response.response.candidates[0].content.parts[0].text], or nothing
    when reading it, or using it as a string, throws. *)
Definition firstCandidateText (r : ProviderResponse) : option jsstring :=
  match r with
  | ProviderResolves ((Some text :: _) :: _) => Some text
  | _ => None
  end.

(** A provider: the response to the [i]-th issued call (from 0), given the
    submitted text. *)
Definition Provider := nat -> jsstring -> ProviderResponse.

(** Computations that submit texts to the provider: the state is the log
    of the texts issued so far, oldest first. *)
Definition Calls (A : Type) := list jsstring -> A * list jsstring.

Definition ret {A} (a : A) : Calls A := fun issued => (a, issued).

Definition bind {A B} (m : Calls A) (k : A -> Calls B) : Calls B :=
  fun issued => let (a, issued') := m issued in k a issued'.

Notation "x <- m ;; k" := (bind m (fun x => k))
  (at level 100, m at next level, right associativity).

(** [Array.from({ length: n }, () => f())]: [f] runs [n] times, in order. *)
Fixpoint Array_from {A} (n : nat) (f : Calls A) : Calls (list A) :=
  match n with
  | O => ret []
  | S n' => a <- f ;; rest <- Array_from n' f ;; ret (a :: rest)
  end.

(** Truthiness of an optional string: [undefined] and the empty string are
    falsy. *)
Definition truthy (o : option jsstring) : bool :=
  match o with
  | Some (_ :: _) => true
  | _ => false
  end.

(** ** The service (services/ai.ts, class AIService) *)

Section AIService.

(** [String.prototype.toLowerCase]: its Unicode tables are not part of the
    repository. *)
Variable toLowerCase : jsstring -> jsstring.

Variable provider : Provider.

Definition callModel (text : jsstring) : Calls ProviderResponse :=
  fun issued => (provider (length issued) text, issued ++ [text]).

Definition contentTypeInstructions (c : ContentType) : jsstring :=
  match c with
  | campaign => lit "You are a marketing campaign strategist. Create comprehensive campaign content that drives engagement and conversions."
  | post => lit "You are a social media expert. Create engaging social media posts that capture attention and encourage interaction."
  | email => lit "You are an email marketing specialist. Create compelling email content that drives opens, clicks, and conversions."
  | social => lit "You are a social media content creator. Create shareable content optimized for social media platforms."
  end.

Definition toneInstructions (t : Tone) : jsstring :=
  match t with
  | professional => lit "Use a professional, authoritative tone."
  | casual => lit "Use a casual, conversational tone."
  | enthusiastic => lit "Use an enthusiastic, energetic tone."
  | friendly => lit "Use a friendly, approachable tone."
  end.

Definition lengthInstructions (l : Length) : jsstring :=
  match l with
  | short => lit "Keep it concise (1-2 sentences)"
  | medium => lit "Medium length (2-4 sentences)"
  | long => lit "Comprehensive length (multiple paragraphs)"
  end.

Definition contentTypeName (c : ContentType) : jsstring :=
  match c with
  | campaign => lit "campaign"
  | post => lit "post"
  | email => lit "email"
  | social => lit "social"
  end.

Definition buildSystemPrompt (request : GenerateContentRequest) : jsstring :=
  let systemPrompt := contentTypeInstructions (contentType request) in
  let systemPrompt :=
    match tone request with
    | Some t => systemPrompt ++ lit " " ++ toneInstructions t
    | None => systemPrompt
    end in
  let systemPrompt :=
    if truthy (targetAudience request)
    then systemPrompt ++ lit " Target audience: "
           ++ default [] (targetAudience request) ++ lit "."
    else systemPrompt in
  systemPrompt ++ lit " Provide high-quality, original content that is engaging and relevant.".

Definition buildUserPrompt (request : GenerateContentRequest) : jsstring :=
  let userPrompt :=
    lit "Create " ++ contentTypeName (contentType request)
      ++ lit " content based on: " ++ prompt request in
  let userPrompt :=
    match length' request with
    | Some l => userPrompt ++ lit " Length: " ++ lengthInstructions l ++ lit "."
    | None => userPrompt
    end in
  match keywords request with
  | Some ((_ :: _) as kws) =>
      userPrompt ++ lit " Include these keywords naturally: "
        ++ join (lit ", ") kws ++ lit "."
  | _ => userPrompt
  end.

Definition isLength (l : Length) (request : GenerateContentRequest) : bool :=
  match length' request, l with
  | Some short, short | Some medium, medium | Some long, long => true
  | _, _ => false
  end.

Definition calculateConfidence (content : jsstring)
    (request : GenerateContentRequest) : float :=
  let confidence := 0.8%float in
  let wordCount := length (split SPACE content) in
  let confidence :=
    if isLength short request && (wordCount <=? 50) then (confidence + 0.1)%float
    else if isLength medium request && (50 <? wordCount) && (wordCount <=? 200)
      then (confidence + 0.1)%float
    else if isLength long request && (200 <? wordCount) then (confidence + 0.1)%float
    else confidence in
  let confidence :=
    match keywords request with
    | Some kws =>
        let keywordMatches :=
          length (List.filter
                    (fun keyword => includes (toLowerCase content) (toLowerCase keyword))
                    kws) in
        (confidence
         + (Number_of_nat keywordMatches / Number_of_nat (length kws)) * 0.1)%float
    | None => confidence
    end in
  Math_min confidence 1%float.

Definition parseGeneratedContent (generatedText : jsstring)
    (request : GenerateContentRequest) : ContentSuggestion :=
  let lines :=
    List.filter (fun line => 0 <? length (trim line)) (split LF generatedText) in
  let '(title, content) :=
    match lines with
    | first :: rest =>
        if (1 <? length lines) && (length first <? 100) && testLeadingCapital first
        then (Some (trim first), trim (join [LF] rest))
        else (None, trim generatedText)
    | [] => (None, trim generatedText)
    end in
  let confidence := calculateConfidence content request in
  {| content := content; title := title; hashtags := None;
     confidence := confidence; alternatives := None |}.

Definition generateContent (request : GenerateContentRequest)
    : Calls (Promise ContentSuggestion) :=
  let systemPrompt := buildSystemPrompt request in
  let userPrompt := buildUserPrompt request in
  response <- callModel (systemPrompt ++ [LF; LF] ++ userPrompt) ;;
  ret match firstCandidateText response with
      | Some generatedText => Fulfilled (parseGeneratedContent generatedText request)
      | None => Rejected (mkError (lit "Failed to generate content. Please try again."))
      end.

(** The decay the variations get: [result.confidence * (1 - index * 0.1)]. *)
Definition decay (index : nat) (result : ContentSuggestion) : ContentSuggestion :=
  {| content := content result; title := title result;
     hashtags := hashtags result;
     confidence := (confidence result * (1 - Number_of_nat index * 0.1))%float;
     alternatives := alternatives result |}.

(** [count] is [None] when the caller leaves it out (the default is 3);
    [completion] is the order in which the issued calls settle. *)
Definition generateMultipleVariations (request : GenerateContentRequest)
    (count : option Z) (completion : list nat)
    : Calls (Promise (list ContentSuggestion)) :=
  let count := default 3%Z count in
  promises <- Array_from (Z.to_nat count)
                (generateContent
                   {| prompt := prompt request ++ lit " (Generate a unique variation)";
                      contentType := contentType request; tone := tone request;
                      length' := length' request;
                      targetAudience := targetAudience request;
                      keywords := keywords request |}) ;;
  ret match Promise_all promises completion with
      | Fulfilled results => Fulfilled (imap decay results)
      | Rejected _ => Rejected (mkError (lit "Failed to generate content variations."))
      | Pending => Pending
      end.

Definition improvementPrompts (improvementType : ImprovementType)
    (targetAudience : option jsstring) : jsstring :=
  match improvementType with
  | engagement => lit "Make this content more engaging and compelling"
  | clarity => lit "Improve the clarity and readability of this content"
  | seo => lit "Optimize this content for search engines while maintaining readability"
  | toneOfVoice =>
      lit "Adjust the tone of this content to better match the "
        ++ (if truthy targetAudience then default [] targetAudience
            else lit "target audience")
  end.

Definition improvContent (originalContent : jsstring)
    (improvementType : ImprovementType) (targetAudience : option jsstring)
    : Calls (Promise ContentSuggestion) :=
  let prompt :=
    improvementPrompts improvementType targetAudience
      ++ lit ":" ++ [LF; LF] ++ originalContent in
  generateContent
    {| prompt := prompt; contentType := post; tone := None; length' := None;
       targetAudience := targetAudience; keywords := None |}.

(** The token pipeline of [generateHashtags]. *)
Definition parseHashtags (generatedText : jsstring) (count : Z) : list jsstring :=
  slice0 count
    (List.filter (fun tag => 0 <? length tag)
       (List.map (fun tag => removeFirst HASH (trim tag))
          (split COMMA generatedText))).

(** [count] is [None] when the caller leaves it out (the default is 10). *)
Definition generateHashtags (content : jsstring) (count : option Z)
    : Calls (Promise (list jsstring)) :=
  let count := default 10%Z count in
  let prompt :=
    lit "Generate " ++ Number_toString count
      ++ lit " relevant and popular hashtags for the following content. Return only the hashtags separated by commas, without the # symbol:"
      ++ [LF; LF] ++ content in
  response <- callModel prompt ;;
  ret match firstCandidateText response with
      | Some generatedText => Fulfilled (parseHashtags generatedText count)
      | None => Fulfilled []
      end.

End AIService.

(** ** The count validation of the variations route (routes/ai.ts, line 74)

    [count: Joi.number().min(2).max(5).default(3)]: an absent count becomes
    3, and a result of [None] is a request answered with status 400. *)
Definition validateCount (count : option Z) : option Z :=
  match count with
  | None => Some 3%Z
  | Some c => if ((2 <=? c) && (c <=? 5))%Z then Some c else None
  end.

(** ** The handlers over the service (routes/ai.ts, routes/posts.ts)

    A handler reads the user id that an earlier middleware may have put on
    the request, validates the body against its schema, calls the service
    and answers with a status and a JSON body. *)

Record HttpRequest (Body : Type) := mkHttpRequest {
  userId : option jsstring;
  body : Body
}.
Arguments userId {Body} _.
Arguments body {Body} _.

(** The [data] of a successful answer; a field only some handlers send is
    optional. *)
Inductive Data :=
  | SuggestionData (suggestion : ContentSuggestion) (prompt : jsstring)
      (contentType : ContentType)
  | SuggestionsData (suggestions : list ContentSuggestion) (totalVariations : nat)
      (echo : option (jsstring * ContentType))
  | ImprovementData (original : jsstring) (improved : ContentSuggestion)
      (improvementType : ImprovementType) (audience : option (option jsstring))
  | HashtagsData (hashtags : list jsstring) (total : nat)
      (content : option jsstring).

Inductive Json :=
  | Success (data : Data)
  | Failure (message : jsstring).

Record Response := mkResponse { status : nat; json : Json }.

(** [res.status(401).json({ success: false, message: 'Authentication required' })]. *)
Definition unauthorized : Response :=
  {| status := 401; json := Failure (lit "Authentication required") |}.

(** [res.status(400).json({ success: false, message: error.details[0].message })]. *)
Definition badRequest (message : jsstring) : Response :=
  {| status := 400; json := Failure message |}.

(** [res.status(500).json({ success: false, message })]. *)
Definition serverError (message : jsstring) : Response :=
  {| status := 500; json := Failure message |}.

(** [res.json({ success: true, data })]. *)
Definition ok (data : Data) : Response := {| status := 200; json := Success data |}.

Section Routes.

Variable toLowerCase : jsstring -> jsstring.
Variable provider : Provider.

(** [schema.validate(req.body)] for the schema of each handler: the message
    of the first error, or the validated value with its defaults.  The
    schema library is not part of the repository. *)
Variable Body : Type.
Variable validateGenerate : Body -> jsstring + GenerateContentRequest.
Variable validateVariations : Body -> jsstring + GenerateContentRequest * Z.
Variable validateImprove :
  Body -> jsstring + jsstring * ImprovementType * option jsstring.
Variable validateHashtags : Body -> jsstring + jsstring * Z.
Variable validatePostGenerate : Body -> jsstring + GenerateContentRequest * Z.

(** routes/ai.ts, [router.post('/generate')]. *)
Definition ai_generate (req : HttpRequest Body) : Calls (option Response) :=
  if negb (truthy (userId req)) then ret (Some unauthorized)
  else match validateGenerate (body req) with
       | inl message => ret (Some (badRequest message))
       | inr value =>
           outcome <- generateContent toLowerCase provider value ;;
           ret match outcome with
               | Fulfilled suggestion =>
                   Some (ok (SuggestionData suggestion (prompt value)
                               (contentType value)))
               | Rejected _ =>
                   Some (serverError
                           (lit "Failed to generate content. Please try again."))
               | Pending => None
               end
       end.

(** routes/ai.ts, [router.post('/variations')]. *)
Definition ai_variations (completion : list nat) (req : HttpRequest Body)
    : Calls (option Response) :=
  if negb (truthy (userId req)) then ret (Some unauthorized)
  else match validateVariations (body req) with
       | inl message => ret (Some (badRequest message))
       | inr (requestData, count) =>
           outcome <- generateMultipleVariations toLowerCase provider requestData
                        (Some count) completion ;;
           ret match outcome with
               | Fulfilled suggestions =>
                   Some (ok (SuggestionsData suggestions (length suggestions)
                               (Some (prompt requestData, contentType requestData))))
               | Rejected _ =>
                   Some (serverError
                           (lit "Failed to generate content variations. Please try again."))
               | Pending => None
               end
       end.

(** routes/ai.ts, [router.post('/improve')]. *)
Definition ai_improve (req : HttpRequest Body) : Calls (option Response) :=
  if negb (truthy (userId req)) then ret (Some unauthorized)
  else match validateImprove (body req) with
       | inl message => ret (Some (badRequest message))
       | inr (content, improvementType, audience) =>
           outcome <- improvContent toLowerCase provider content improvementType
                        audience ;;
           ret match outcome with
               | Fulfilled improvement =>
                   Some (ok (ImprovementData content improvement improvementType
                               (Some audience)))
               | Rejected _ =>
                   Some (serverError
                           (lit "Failed to improve content. Please try again."))
               | Pending => None
               end
       end.

(** routes/ai.ts, [router.post('/hashtags')]. *)
Definition ai_hashtags (req : HttpRequest Body) : Calls (option Response) :=
  if negb (truthy (userId req)) then ret (Some unauthorized)
  else match validateHashtags (body req) with
       | inl message => ret (Some (badRequest message))
       | inr (content, count) =>
           outcome <- generateHashtags provider content (Some count) ;;
           ret match outcome with
               | Fulfilled hashtags =>
                   Some (ok (HashtagsData hashtags (length hashtags) (Some content)))
               | Rejected _ =>
                   Some (serverError
                           (lit "Failed to generate hashtags. Please try again."))
               | Pending => None
               end
       end.

(** routes/posts.ts, [router.post('/generate')]: the validated value is the
    request with its number of variations. *)
Definition posts_generate (completion : list nat) (req : HttpRequest Body)
    : Calls (option Response) :=
  if negb (truthy (userId req)) then ret (Some unauthorized)
  else match validatePostGenerate (body req) with
       | inl message => ret (Some (badRequest message))
       | inr (value, variations) =>
           outcome <-
             (if (1 <? variations)%Z
              then generateMultipleVariations toLowerCase provider value
                     (Some variations) completion
              else
                single <- generateContent toLowerCase provider value ;;
                ret match single with
                    | Fulfilled suggestion => Fulfilled [suggestion]
                    | Rejected e => Rejected e
                    | Pending => Pending
                    end) ;;
           ret match outcome with
               | Fulfilled suggestions =>
                   Some (ok (SuggestionsData suggestions (length suggestions) None))
               | Rejected _ =>
                   Some (serverError
                           (lit "Failed to generate content. Please try again."))
               | Pending => None
               end
       end.

(** routes/posts.ts, [router.post('/hashtags')]. *)
Definition posts_hashtags (req : HttpRequest Body) : Calls (option Response) :=
  if negb (truthy (userId req)) then ret (Some unauthorized)
  else match validateHashtags (body req) with
       | inl message => ret (Some (badRequest message))
       | inr (content, count) =>
           outcome <- generateHashtags provider content (Some count) ;;
           ret match outcome with
               | Fulfilled hashtags =>
                   Some (ok (HashtagsData hashtags (length hashtags) None))
               | Rejected _ =>
                   Some (serverError
                           (lit "Failed to generate hashtags. Please try again."))
               | Pending => None
               end
       end.

(** routes/posts.ts, [router.post('/improve')]. *)
Definition posts_improve (req : HttpRequest Body) : Calls (option Response) :=
  if negb (truthy (userId req)) then ret (Some unauthorized)
  else match validateImprove (body req) with
       | inl message => ret (Some (badRequest message))
       | inr (content, improvementType, audience) =>
           outcome <- improvContent toLowerCase provider content improvementType
                        audience ;;
           ret match outcome with
               | Fulfilled improvement =>
                   Some (ok (ImprovementData content improvement improvementType
                               None))
               | Rejected _ =>
                   Some (serverError
                           (lit "Failed to improve content. Please try again."))
               | Pending => None
               end
       end.

(** The seven handlers that reach the service. *)
Definition handlers (completion : list nat)
    : list (HttpRequest Body -> Calls (option Response)) :=
  [ai_generate; ai_variations completion; ai_improve; ai_hashtags;
   posts_generate completion; posts_hashtags; posts_improve].

End Routes.

(** The guards of a handler: an unauthenticated request is answered 401,
    every answer has one of four statuses, and an answer of 401 or 400
    comes without any call to the provider. *)
Definition guarded {Body : Type}
    (h : HttpRequest Body -> Calls (option Response)) : Prop :=
  forall req issued,
    (truthy (userId req) = false -> h req issued = (Some unauthorized, issued))
    /\ (forall r,
          (h req issued).1 = Some r ->
          (status r = 200 \/ status r = 400 \/ status r = 401 \/ status r = 500)
          /\ (status r = 401 <-> truthy (userId req) = false)
          /\ (status r = 401 \/ status r = 400 -> (h req issued).2 = issued)).

(** ** Observations on the service *)

(** The words of a content: its pieces between single spaces. *)
Definition wordCount (content : jsstring) : nat := length (split SPACE content).

(** The keywords that occur in the content, compared in lower case. *)
Definition keywordMatches (toLowerCase : jsstring -> jsstring)
    (content : jsstring) (kws : list jsstring) : nat :=
  length (List.filter
            (fun keyword => includes (toLowerCase content) (toLowerCase keyword))
            kws).

(** A string of white space only. *)
Definition blank (s : jsstring) : bool := forallb isWhiteSpace s.

(** The lines of a text the parser keeps. *)
Definition keptLines (text : jsstring) : list jsstring :=
  List.filter (fun line => 0 <? length (trim line)) (split LF text).

(** The single spaces of a content. *)
Definition spaces (content : jsstring) : nat :=
  length (List.filter (fun c => (c =? SPACE)%N) content).

(** The parser's title test: at least two kept lines, the first of them
    under 100 code units and starting with a letter from A to Z. *)
Definition titled (text : jsstring) : bool :=
  match keptLines text with
  | first :: rest =>
      (1 <? length (first :: rest)) && (length first <? 100)
      && testLeadingCapital first
  | [] => false
  end.

(** The request a variation call is made with, and the text it submits. *)
Definition variationRequest (request : GenerateContentRequest)
    : GenerateContentRequest :=
  {| prompt := prompt request ++ lit " (Generate a unique variation)";
     contentType := contentType request; tone := tone request;
     length' := length' request; targetAudience := targetAudience request;
     keywords := keywords request |}.

Definition submittedText (request : GenerateContentRequest) : jsstring :=
  buildSystemPrompt request ++ [LF; LF] ++ buildUserPrompt request.

(** The text the provider returns to the single-shot call issued as
    number [i], when the call yields one. *)
Definition responseText (provider : Provider) (request : GenerateContentRequest)
    (i : nat) : option jsstring :=
  firstCandidateText (provider i (submittedText request)).

(** What the single-shot call issued as number [i] settles to. *)
Definition singleShot (toLowerCase : jsstring -> jsstring) (provider : Provider)
    (request : GenerateContentRequest) (i : nat) : Promise ContentSuggestion :=
  match responseText provider request i with
  | Some generatedText =>
      Fulfilled (parseGeneratedContent toLowerCase generatedText request)
  | None => Rejected (mkError (lit "Failed to generate content. Please try again."))
  end.

(** The suggestions of the first [n] variation calls, before the decay. *)
Definition singles (toLowerCase : jsstring -> jsstring) (provider : Provider)
    (request : GenerateContentRequest) (first n : nat) : list ContentSuggestion :=
  (fun i =>
     parseGeneratedContent toLowerCase
       (default [] (responseText provider (variationRequest request) (first + i)))
       (variationRequest request))
    <$> seq 0 n.

(** The request [improvContent] hands to [generateContent]. *)
Definition improvementRequest (originalContent : jsstring)
    (improvementType : ImprovementType) (targetAudience : option jsstring)
    : GenerateContentRequest :=
  {| prompt :=
       improvementPrompts improvementType targetAudience
         ++ lit ":" ++ [LF; LF] ++ originalContent;
     contentType := post; tone := None; length' := None;
     targetAudience := targetAudience; keywords := None |}.

(** The text [generateHashtags] submits. *)
Definition hashtagPrompt (content : jsstring) (count : Z) : jsstring :=
  lit "Generate " ++ Number_toString count
    ++ lit " relevant and popular hashtags for the following content. Return only the hashtags separated by commas, without the # symbol:"
    ++ [LF; LF] ++ content.

(** The matched and total numbers of keywords of a request. *)
Definition coverage (toLowerCase : jsstring -> jsstring) (content : jsstring)
    (request : GenerateContentRequest) : option (nat * nat) :=
  match keywords request with
  | Some kws => Some (keywordMatches toLowerCase content kws, length kws)
  | None => None
  end.

(** The requests the route layer lets through carry at most 20 keywords
    (routes/ai.ts, line 26); an absent list or 1 to 20 keywords. *)
Definition keywordsWithinLimit (request : GenerateContentRequest) : bool :=
  match keywords request with
  | None => true
  | Some kws => (1 <=? length kws) && (length kws <=? 20)
  end.

Definition between (lo hi x : float) : bool :=
  ((lo <=? x) && (x <=? hi))%float.

(** The confidence as a function of what it depends on: whether the word
    count fits the requested length, and the matched and total numbers of
    keywords when the request has a keyword list. *)
Definition score (fits : bool) (coverage : option (nat * nat)) : float :=
  let confidence := if fits then (0.8 + 0.1)%float else 0.8%float in
  let confidence :=
    match coverage with
    | Some (matched, total) =>
        (confidence + (Number_of_nat matched / Number_of_nat total) * 0.1)%float
    | None => confidence
    end in
  Math_min confidence 1%float.

(** The pairs of matched and total keywords of the lists of 1 to [limit]
    keywords. *)
Definition coverages (limit : nat) : list (nat * nat) :=
  total ← seq 1 limit; matched ← seq 0 (S total); [(matched, total)].

(** ** The specification, as worded *)

Module Spec.


(** Section 4.3: the lines are the non-empty trimmed lines of the text. *)
Definition parse (raw : jsstring) : option jsstring * jsstring :=
  let lines :=
    List.filter (fun line => 0 <? length line) (List.map trim (split LF raw)) in
  match lines with
  | first :: rest =>
      if (2 <=? length lines) && (length first <? 100) && testLeadingCapital first
      then (Some first, join [LF] rest)
      else (None, trim raw)
  | [] => (None, trim raw)
  end.

(** Section 4.4: the length band of a word count. *)
Definition inBand (l : option Length) (words : nat) : bool :=
  match l with
  | Some short => words <=? 50
  | Some medium => (50 <? words) && (words <=? 200)
  | Some long => 200 <? words
  | None => false
  end.


(** Section 4.2: a leading hash symbol is stripped. *)
Definition stripLeadingHash (tag : jsstring) : jsstring :=
  match tag with
  | c :: tag' => if (c =? HASH)%N then tag' else tag
  | [] => []
  end.

Definition hashtags (raw : jsstring) (count : Z) : list jsstring :=
  take (Z.to_nat count)
    (List.filter (fun tag => 0 <? length tag)
       (List.map (fun tag => stripLeadingHash (trim tag)) (split COMMA raw))).

(** Section 4.1: the audience clause follows whenever the audience is
    present. *)
Definition systemInstruction (request : GenerateContentRequest) : jsstring :=
  contentTypeInstructions (contentType request)
    ++ match tone request with
       | Some t => lit " " ++ toneInstructions t
       | None => []
       end
    ++ match targetAudience request with
       | Some audience => lit " Target audience: " ++ audience ++ lit "."
       | None => []
       end
    ++ lit " Provide high-quality, original content that is engaging and relevant.".

Definition userInstruction (request : GenerateContentRequest) : jsstring :=
  lit "Create " ++ contentTypeName (contentType request)
    ++ lit " content based on: " ++ prompt request
    ++ match length' request with
       | Some l => lit " Length: " ++ lengthInstructions l ++ lit "."
       | None => []
       end
    ++ match keywords request with
       | Some ((_ :: _) as kws) =>
           lit " Include these keywords naturally: " ++ join (lit ", ") kws ++ lit "."
       | _ => []
       end.

End Spec.

(** ** Sample inputs *)

Module Sample.

(** [toLowerCase] on the Basic Latin block. *)
Definition toLowerCase (s : jsstring) : jsstring :=
  List.map (fun c => if ((65 <=? c) && (c <=? 90))%N then (c + 32)%N else c) s.

Definition request : GenerateContentRequest :=
  {| prompt := lit "Announce the spring sale"; contentType := post;
     tone := None; length' := None; targetAudience := None; keywords := None |}.


Definition withKeywords (kws : list jsstring) : GenerateContentRequest :=
  {| prompt := prompt request; contentType := post; tone := None;
     length' := None; targetAudience := None; keywords := Some kws |}.

Definition withAudience (audience : jsstring) : GenerateContentRequest :=
  {| prompt := prompt request; contentType := email; tone := Some casual;
     length' := Some short; targetAudience := Some audience;
     keywords := Some [lit "sale"; lit "spring"] |}.

(** A provider that answers every call with the same text. *)
Definition answering (text : jsstring) : Provider :=
  fun _ _ => ProviderResolves [[Some text]].

(** A provider whose calls all reject. *)
Definition failing : Provider := fun _ _ => ProviderRejects.

(** A provider whose [bad]-th call resolves without candidates. *)
Definition failingAt (bad : nat) (text : jsstring) : Provider :=
  fun i _ => if i =? bad then ProviderResolves [] else ProviderResolves [[Some text]].

Definition greatNews : jsstring :=
  lit "Great News" ++ [LF] ++ lit "This is the body.".

Definition tenWords : jsstring := lit "one two three four five six seven eight nine ten".

End Sample.

(** * Properties *)

(** ** Strings *)

Section Strings.

Implicit Types s t : jsstring.

Lemma blank_app s t : blank (s ++ t) = blank s && blank t.
Proof. apply forallb_app. Qed.

Lemma blank_rev s : blank (rev s) = blank s.
Proof.
  induction s as [|c s IH]; [done|].
  cbn [rev]. rewrite blank_app, IH. cbn. rewrite andb_true_r. apply andb_comm.
Qed.

Lemma trimStart_blank s : blank (trimStart s) = blank s.
Proof.
  induction s as [|c s IH]; [done|].
  cbn. destruct (isWhiteSpace c) eqn:Hc; cbn; rewrite ?Hc; done.
Qed.

Lemma trimStart_nil s : trimStart s = [] <-> blank s = true.
Proof.
  induction s as [|c s IH]; [done|].
  cbn. destruct (isWhiteSpace c); cbn; [done|]. split; discriminate.
Qed.

Lemma rev_nil_iff s : rev s = [] <-> s = [].
Proof.
  split; [|intros ->; done].
  intros H. apply (f_equal (@rev _)) in H. rewrite rev_involutive in H. done.
Qed.

Lemma trim_nil s : trim s = [] <-> blank s = true.
Proof.
  unfold trim, trimEnd.
  rewrite rev_nil_iff, trimStart_nil, blank_rev, trimStart_blank. done.
Qed.

Lemma blank_trim s : blank (trim s) = blank s.
Proof.
  unfold trim, trimEnd.
  rewrite blank_rev, trimStart_blank, blank_rev, trimStart_blank. done.
Qed.

(** A string survives trimming exactly when it is not blank. *)
Lemma trim_length_pos s : (0 <? length (trim s)) = negb (blank s).
Proof.
  destruct (blank s) eqn:Hb.
  - apply trim_nil in Hb. rewrite Hb. done.
  - destruct (trim s) eqn:Ht; [|done].
    apply trim_nil in Ht. congruence.
Qed.

Lemma trimStart_head s c t : trimStart s = c :: t -> isWhiteSpace c = false.
Proof.
  induction s as [|d s IH]; [done|].
  cbn. destruct (isWhiteSpace d) eqn:Hd; [done|].
  intros [= <- <-]. done.
Qed.

Lemma trimStart_invariant s : trimStart (trimStart s) = trimStart s.
Proof.
  destruct (trimStart s) as [|c t] eqn:Hs; [done|].
  cbn. rewrite (trimStart_head _ _ _ Hs). done.
Qed.

Lemma blank_join_false sep pieces piece :
  piece ∈ pieces -> blank piece = false -> blank (join sep pieces) = false.
Proof.
  induction pieces as [|p ps IH]; [by intros ?%elem_of_nil|].
  intros Hin Hp. apply elem_of_cons in Hin as [<-|Hin].
  - destruct ps; cbn [join]; [done|]. rewrite blank_app, Hp. done.
  - destruct ps as [|q ps]; [by apply elem_of_nil in Hin|].
    change (join sep (p :: q :: ps)) with (p ++ sep ++ join sep (q :: ps)).
    rewrite !blank_app, (IH Hin Hp), !andb_false_r. done.
Qed.

Lemma split_not_nil sep s : split sep s <> [].
Proof.
  destruct s as [|c s]; [done|].
  cbn. destruct (c =? sep)%N; [done|]. destruct (split sep s); done.
Qed.

(** A text without the separator is a single piece. *)
Lemma split_single sep s :
  forallb (fun c => negb (c =? sep)%N) s = true -> split sep s = [s].
Proof.
  induction s as [|c s IH]; [done|].
  cbn. intros [Hc Hs]%andb_true_iff.
  destruct (c =? sep)%N; [done|]. rewrite (IH Hs). done.
Qed.

Lemma keptLines_not_blank text line :
  line ∈ keptLines text -> blank line = false.
Proof.
  unfold keptLines. rewrite list_elem_of_In, filter_In.
  intros [_ H]. rewrite trim_length_pos in H. by destruct (blank line).
Qed.

Lemma length_slice0 {A} (stop : Z) (l : list A) :
  (0 <= stop)%Z -> length (slice0 stop l) <= Z.to_nat stop.
Proof.
  intros H. unfold slice0.
  destruct (Z.ltb_spec stop 0); [lia|]. rewrite length_take. lia.
Qed.

End Strings.

(** ** Promise.all *)

Section PromiseAll.

Context {A : Type}.
Implicit Types (promises : list (Promise A)) (vs : list A).
Implicit Types (completion : list nat) (values : list (option A)).

Lemma mapM_id_Some vs : mapM id (Some <$> vs) = Some vs.
Proof. apply mapM_Some, Forall2_fmap_l, Forall2_lookup; intros i. destruct (vs !! i); constructor; done. Qed.

(** While the promises that are still to settle all fulfil, the slots of
    the settled ones hold their values; when none is left the aggregate
    fulfils with the values in index order. *)
Lemma Promise_all_settle_fulfilled vs completion values :
  (forall i, i ∈ completion -> i < length vs) ->
  length values = length vs ->
  (forall i v, vs !! i = Some v -> i ∉ completion -> values !! i = Some (Some v)) ->
  Promise_all_settle (Fulfilled <$> vs) completion values (length completion)
  = Fulfilled vs.
Proof.
  revert values. induction completion as [|i later IH]; intros values Hlt Hlen Hfilled.
  - cbn. replace values with (Some <$> vs); [by rewrite mapM_id_Some|].
    apply list_eq; intros i. rewrite list_lookup_fmap.
    destruct (vs !! i) as [v|] eqn:Hv; cbn.
    + symmetry. apply Hfilled; [done|]. apply not_elem_of_nil.
    + symmetry. apply lookup_ge_None. rewrite Hlen. by apply lookup_ge_None.
  - cbn [Promise_all_settle length pred].
    assert (i < length vs) as Hi by (apply Hlt; left).
    destruct (lookup_lt_is_Some_2 vs i Hi) as [v Hv].
    rewrite list_lookup_fmap, Hv. cbn.
    apply IH.
    + intros j Hj. apply Hlt. by right.
    + by rewrite length_insert.
    + intros j w Hw Hj. destruct (decide (i = j)) as [->|Hne].
      * rewrite list_lookup_insert_eq by lia. congruence.
      * rewrite list_lookup_insert_ne by done.
        apply Hfilled; [done|]. intros [->|?]%elem_of_cons; done.
Qed.

Lemma Promise_all_fulfilled vs completion :
  completion ≡ₚ seq 0 (length vs) ->
  Promise_all (Fulfilled <$> vs) completion = Fulfilled vs.
Proof.
  intros Hperm. unfold Promise_all. rewrite length_fmap.
  replace (length vs) with (length completion) at 2
    by (rewrite Hperm; apply length_seq).
  apply Promise_all_settle_fulfilled.
  - intros i Hi. rewrite Hperm in Hi. apply elem_of_seq in Hi. lia.
  - apply length_replicate.
  - intros i v Hv Hi. exfalso. apply Hi. rewrite Hperm. apply elem_of_seq.
    apply lookup_lt_Some in Hv. lia.
Qed.

(** When a promise that is still to settle rejects, the aggregate rejects
    with the reason of the first one that does, whatever was stored. *)
Lemma Promise_all_settle_rejected promises completion values remaining :
  (forall i, i ∈ completion -> exists p, promises !! i = Some p /\ settled p) ->
  (exists i p, i ∈ completion /\ promises !! i = Some p /\ rejected p) ->
  exists e, Promise_all_settle promises completion values remaining = Rejected e.
Proof.
  revert values remaining.
  induction completion as [|i later IH]; intros values remaining Hall (j & p & Hj & Hp & Hrej).
  - by apply elem_of_nil in Hj.
  - cbn [Promise_all_settle].
    destruct (Hall i) as (q & Hq & Hset); [left|]. rewrite Hq.
    destruct q as [|v|e]; [done| |by eexists].
    apply IH.
    + intros k Hk. apply Hall. by right.
    + exists j, p. split_and!; [|done..].
      apply elem_of_cons in Hj as [->|Hj]; [|done].
      rewrite Hq in Hp. injection Hp as <-. done.
Qed.

Lemma Promise_all_rejected promises completion :
  completion ≡ₚ seq 0 (length promises) ->
  Forall settled promises ->
  Exists rejected promises ->
  exists e, Promise_all promises completion = Rejected e.
Proof.
  intros Hperm Hset Hrej. apply Promise_all_settle_rejected.
  - intros i Hi. rewrite Hperm in Hi. apply elem_of_seq in Hi.
    destruct (lookup_lt_is_Some_2 promises i) as [p Hp]; [lia|].
    exists p. split; [done|]. by eapply Forall_lookup_1.
  - apply Exists_exists in Hrej as (p & Hin & Hp).
    apply list_elem_of_lookup in Hin as [i Hi].
    exists i, p. split_and!; [|done..].
    rewrite Hperm. apply elem_of_seq. apply lookup_lt_Some in Hi. lia.
Qed.

(** Without promises the aggregate fulfils at once. *)
Lemma Promise_all_nil completion : Promise_all (@nil (Promise A)) completion = Fulfilled [].
Proof.
  unfold Promise_all. cbn [length replicate].
  induction completion as [|i later IH]; [done|]. cbn. done.
Qed.

End PromiseAll.

(** ** Numbers *)

Section Numbers.

Implicit Types x y : float.



(** Multiplying by one is exact: the product of the mantissas is the
    mantissa shifted by 52 bits, and rounding shifts it back. *)
Lemma float_mul_1_r x : (x * 1)%float = x.
Proof.
  apply Prim2SF_inj. rewrite FloatAxioms.mul_spec.
  change (Prim2SF 1) with (S754_finite false 4503599627370496 (-52)).
  pose proof (Prim2SF_valid x) as Hv.
  destruct (Prim2SF x) as [s|s| |s m e]; try (destruct s; reflexivity);
    try reflexivity.
  cbn [SpecFloat.valid_binary bounded] in Hv.
  apply andb_prop in Hv as [Hc He].
  unfold canonical_mantissa in Hc. apply Z.eqb_eq in Hc.
  unfold SF64mul, SFmul, binary_round_aux.
  rewrite xorb_false_r, Pos.mul_comm.
  lazy beta iota delta [Pos.mul].
  unfold shr_fexp at 1. cbn [Zdigits2 digits2_pos shr_record_of_loc].
  rewrite !Pos2Z.inj_succ.
  match goal with
  | |- context [fexp prec emax ?a] =>
      replace a with (Z.pos (digits2_pos m) + e)%Z by lia
  end.
  rewrite Hc.
  replace (e - (e + -52))%Z with 52%Z by lia.
  lazy beta iota delta
    [shr SpecFloat.iter_pos shr_1 orb shr_m loc_of_shr_record round_nearest_even].
  replace (e + -52 + 52)%Z with e by lia.
  unfold shr_fexp. cbn [Zdigits2 shr_record_of_loc].
  rewrite Hc, Z.sub_diag. cbn [shr shr_m]. rewrite He. reflexivity.
Qed.

(** The multipliers of the first three variations. *)
Lemma decay_multipliers :
  (1 - Number_of_nat 0 * 0.1 = 1)%float
  /\ (1 - Number_of_nat 1 * 0.1 = 0.9)%float
  /\ (1 - Number_of_nat 2 * 0.1 = 0.8)%float.
Proof. repeat split; reflexivity. Qed.

Lemma elem_of_coverages limit matched total :
  1 <= total <= limit -> matched <= total ->
  (matched, total) ∈ coverages limit.
Proof.
  intros Ht Hm. unfold coverages.
  apply list_elem_of_bind. exists total. split; [|apply elem_of_seq; lia].
  apply list_elem_of_bind. exists matched. split; [|apply elem_of_seq; lia].
  apply list_elem_of_singleton. done.
Qed.





End Numbers.

(** ** The service *)

Section Service.

Variable toLowerCase : jsstring -> jsstring.
Variable provider : Provider.

Implicit Types (request : GenerateContentRequest) (issued : list jsstring).

Lemma inBand_chain request words (a b : float) :
  (if isLength short request && (words <=? 50) then a
   else if isLength medium request && (50 <? words) && (words <=? 200) then a
   else if isLength long request && (200 <? words) then a
   else b)
  = if Spec.inBand (length' request) words then a else b.
Proof.
  unfold isLength, Spec.inBand.
  destruct (length' request) as [[]|]; cbn;
    repeat match goal with |- context [if ?c then _ else _] => destruct c end;
    reflexivity.
Qed.

(** The confidence depends on the content and the request through the
    length fit and the keyword coverage only. *)
Lemma calculateConfidence_score content request :
  calculateConfidence toLowerCase content request
  = score (Spec.inBand (length' request) (wordCount content))
          (coverage toLowerCase content request).
Proof.
  unfold calculateConfidence, score, coverage, wordCount, keywordMatches.
  rewrite inBand_chain.
  destruct (Spec.inBand _ _), (keywords request); reflexivity.
Qed.

Lemma coverage_within_limit content request :
  keywordsWithinLimit request = true ->
  match coverage toLowerCase content request with
  | Some (matched, total) => 1 <= total <= 20 /\ matched <= total
  | None => True
  end.
Proof.
  unfold keywordsWithinLimit, coverage, keywordMatches.
  destruct (keywords request) as [kws|]; [|done].
  intros [H1 H2]%andb_true_iff.
  apply Nat.leb_le in H1, H2. split; [lia|]. apply List.filter_length_le.
Qed.

Lemma parseGeneratedContent_titled text request :
  titled text = true ->
  parseGeneratedContent toLowerCase text request
  = {| content := trim (join [LF] (tail (keptLines text)));
       title := Some (trim (hd [] (keptLines text)));
       hashtags := None;
       confidence :=
         calculateConfidence toLowerCase
           (trim (join [LF] (tail (keptLines text)))) request;
       alternatives := None |}.
Proof.
  unfold titled, parseGeneratedContent. fold (keptLines text).
  destruct (keptLines text) as [|first rest]; [done|].
  intros ->. reflexivity.
Qed.

Lemma parseGeneratedContent_untitled text request :
  titled text = false ->
  parseGeneratedContent toLowerCase text request
  = {| content := trim text; title := None; hashtags := None;
       confidence := calculateConfidence toLowerCase (trim text) request;
       alternatives := None |}.
Proof.
  unfold titled, parseGeneratedContent. fold (keptLines text).
  destruct (keptLines text) as [|first rest]; [done|].
  intros ->. reflexivity.
Qed.


Lemma parseGeneratedContent_confidence text request :
  confidence (parseGeneratedContent toLowerCase text request)
  = calculateConfidence toLowerCase
      (content (parseGeneratedContent toLowerCase text request)) request.
Proof.
  destruct (titled text) eqn:Ht.
  - by rewrite parseGeneratedContent_titled.
  - by rewrite parseGeneratedContent_untitled.
Qed.

Lemma generateContent_run request issued :
  generateContent toLowerCase provider request issued
  = (singleShot toLowerCase provider request (length issued),
     issued ++ [submittedText request]).
Proof. reflexivity. Qed.

Lemma Array_from_generateContent request n issued :
  Array_from n (generateContent toLowerCase provider request) issued
  = ((fun i => singleShot toLowerCase provider request (length issued + i))
       <$> seq 0 n,
     issued ++ replicate n (submittedText request)).
Proof.
  revert issued. induction n as [|n IH]; intros issued.
  - cbn. by rewrite app_nil_r.
  - cbn [Array_from]. unfold bind at 1. rewrite generateContent_run.
    unfold bind at 1. rewrite IH. unfold ret.
    rewrite length_app. cbn [length replicate seq fmap list_fmap].
    rewrite Nat.add_0_r, <- app_assoc. cbn [app]. f_equal. f_equal.
    rewrite <- fmap_S_seq, <- list_fmap_compose.
    apply list_fmap_ext. intros _ i _. cbn. f_equal. lia.
Qed.

Lemma generateMultipleVariations_run request count completion issued :
  generateMultipleVariations toLowerCase provider request count completion issued
  = (match
       Promise_all
         ((fun i => singleShot toLowerCase provider (variationRequest request)
                      (length issued + i))
            <$> seq 0 (Z.to_nat (default 3%Z count)))
         completion
     with
     | Fulfilled results => Fulfilled (imap decay results)
     | Rejected _ => Rejected (mkError (lit "Failed to generate content variations."))
     | Pending => Pending
     end,
     issued ++ replicate (Z.to_nat (default 3%Z count))
                 (submittedText (variationRequest request))).
Proof.
  unfold generateMultipleVariations. fold (variationRequest request).
  unfold bind. rewrite Array_from_generateContent. reflexivity.
Qed.

Lemma singleShot_settled request i :
  settled (singleShot toLowerCase provider request i).
Proof. unfold singleShot. by destruct (responseText _ _ _). Qed.

(** When every variation call yields a text, the batch fulfils with the
    decayed suggestions in issuance order, whatever the completion order. *)
Lemma variations_fulfilled request count completion issued :
  completion ≡ₚ seq 0 (Z.to_nat (default 3%Z count)) ->
  (forall i, i < Z.to_nat (default 3%Z count) ->
     is_Some (responseText provider (variationRequest request) (length issued + i))) ->
  (generateMultipleVariations toLowerCase provider request count completion issued).1
  = Fulfilled
      (imap decay
         (singles toLowerCase provider request (length issued)
            (Z.to_nat (default 3%Z count)))).
Proof.
  intros Hperm Hall. rewrite generateMultipleVariations_run. cbn [fst].
  set (n := Z.to_nat (default 3%Z count)) in *.
  replace (_ <$> seq 0 n)
    with (Fulfilled <$> singles toLowerCase provider request (length issued) n).
  - rewrite Promise_all_fulfilled; [done|].
    unfold singles. by rewrite length_fmap, length_seq.
  - unfold singles. rewrite <- list_fmap_compose.
    apply list_fmap_ext. intros k i [-> Hk]%lookup_seq. cbn.
    unfold singleShot. by destruct (Hall k Hk) as [text ->].
Qed.

(** When a variation call yields no text, the batch rejects. *)
Lemma variations_rejected request count completion issued i :
  completion ≡ₚ seq 0 (Z.to_nat (default 3%Z count)) ->
  i < Z.to_nat (default 3%Z count) ->
  responseText provider (variationRequest request) (length issued + i) = None ->
  (generateMultipleVariations toLowerCase provider request count completion issued).1
  = Rejected (mkError (lit "Failed to generate content variations.")).
Proof.
  intros Hperm Hi Hnone. rewrite generateMultipleVariations_run. cbn [fst].
  set (n := Z.to_nat (default 3%Z count)) in *.
  destruct (Promise_all_rejected
              ((fun i => singleShot toLowerCase provider (variationRequest request)
                           (length issued + i)) <$> seq 0 n) completion)
    as [e ->]; [| | |done].
  - by rewrite length_fmap, length_seq.
  - apply Forall_fmap, Forall_forall. intros j _. apply singleShot_settled.
  - apply Exists_exists. eexists. split.
    + apply list_elem_of_fmap. exists i. split; [done|]. apply elem_of_seq. lia.
    + cbn. unfold singleShot. by rewrite Hnone.
Qed.

Lemma variations_fulfilled_inv request count completion issued results :
  completion ≡ₚ seq 0 (Z.to_nat (default 3%Z count)) ->
  (generateMultipleVariations toLowerCase provider request count completion issued).1
  = Fulfilled results ->
  forall i, i < Z.to_nat (default 3%Z count) ->
    is_Some (responseText provider (variationRequest request) (length issued + i)).
Proof.
  intros Hperm Hres i Hi.
  destruct (responseText _ _ _) eqn:Hr; [done|].
  rewrite (variations_rejected _ _ _ _ i) in Hres; done.
Qed.

End Service.

(** * The claims *)

(** ** Confidence scorer *)



(** C3, as the code has it.  A keyword list that is present but empty
    passes the guard [if (request.keywords)], the coverage is 0/0, and the
    confidence is NaN for every content and every length; the guard of
    [buildUserPrompt] on the same field does test the length of the list. *)
Theorem calculateConfidence_empty_keywords (toLowerCase : jsstring -> jsstring)
    (content : jsstring) (request : GenerateContentRequest) :
  keywords request = Some [] ->
  calculateConfidence toLowerCase content request = PrimFloat.nan
  /\ between 0 1 (calculateConfidence toLowerCase content request) = false.
Proof.
  intros Hk. rewrite calculateConfidence_score. unfold coverage. rewrite Hk.
  by destruct (Spec.inBand _ _).
Qed.

Lemma calculateConfidence_empty_keywords_witness :
  calculateConfidence Sample.toLowerCase Sample.tenWords (Sample.withKeywords [])
  = PrimFloat.nan
  /\ between 0 1
       (calculateConfidence Sample.toLowerCase Sample.tenWords
          (Sample.withKeywords [])) = false.
Proof.
  apply (calculateConfidence_empty_keywords Sample.toLowerCase Sample.tenWords
           (Sample.withKeywords [])).
  reflexivity.
Defined.

(** ** Output parser *)

Lemma titled_iff (text : jsstring) :
  titled text = true
  <-> 2 <= length (keptLines text)
      /\ length (hd [] (keptLines text)) < 100
      /\ testLeadingCapital (hd [] (keptLines text)) = true.
Proof.
  unfold titled. destruct (keptLines text) as [|first rest].
  - cbn. split; [done|]. lia.
  - cbn [hd]. rewrite !andb_true_iff, Nat.ltb_lt, Nat.ltb_lt. cbn [length].
    split; [intros [[? ?] ?]|intros (? & ? & ?)]; split_and!; done || lia.
Qed.

(** C4, as the code has it.  The text is split at line feeds and the lines
    that are blank are dropped; the kept lines are not trimmed.  A title
    is returned if and only if there are at least 2 kept lines and the
    first of them, untrimmed, is under 100 code units long and starts with
    a letter from A to Z.  Then the title is the first kept line, trimmed,
    and the content is the other kept lines joined by line feeds, trimmed
    as a whole; otherwise there is no title and the content is the trimmed
    text.  The three examples of the claim hold. *)
Theorem parseGeneratedContent_title_rule (toLowerCase : jsstring -> jsstring)
    (text : jsstring) (request : GenerateContentRequest) :
  let parsed := parseGeneratedContent toLowerCase text request in
  (is_Some (title parsed)
   <-> 2 <= length (keptLines text)
       /\ length (hd [] (keptLines text)) < 100
       /\ testLeadingCapital (hd [] (keptLines text)) = true)
  /\ (is_Some (title parsed) ->
      title parsed = Some (trim (hd [] (keptLines text)))
      /\ content parsed = trim (join [LF] (tail (keptLines text))))
  /\ (title parsed = None -> content parsed = trim text)
  /\ (title (parseGeneratedContent toLowerCase Sample.greatNews request)
        = Some (lit "Great News")
      /\ content (parseGeneratedContent toLowerCase Sample.greatNews request)
        = lit "This is the body.")
  /\ (forallb (fun c => negb (c =? LF)%N) text = true ->
      title parsed = None /\ content parsed = trim text)
  /\ (100 <= length (hd [] (keptLines text)) -> title parsed = None).
Proof.
  intros parsed. subst parsed. rewrite <- titled_iff.
  destruct (titled text) eqn:Ht.
  - rewrite parseGeneratedContent_titled by done. cbv [title content].
    split_and!; try done.
    + intros Hone. exfalso. unfold titled, keptLines in Ht.
      rewrite (split_single _ _ Hone) in Ht. cbv [List.filter] in Ht.
      destruct (0 <? length (trim text)); [|done].
      cbn [length] in Ht. by rewrite Nat.ltb_irrefl in Ht.
    + intros Hlong. apply titled_iff in Ht. lia.
  - rewrite parseGeneratedContent_untitled by done. cbv [title content].
    split_and!; done.
Qed.

Lemma parseGeneratedContent_title_rule_witness :
  title (parseGeneratedContent Sample.toLowerCase Sample.tenWords Sample.request)
  = None
  /\ content (parseGeneratedContent Sample.toLowerCase Sample.tenWords Sample.request)
     = trim Sample.tenWords.
Proof.
  apply (parseGeneratedContent_title_rule Sample.toLowerCase Sample.tenWords
           Sample.request).
  reflexivity.
Defined.

(** C4 as worded fails: with trimmed lines, a first line that is indented
    is a title; the code tests the untrimmed line and finds none. *)
Lemma parseGeneratedContent_untrimmed_first_line :
  let text := lit "  Title" ++ [LF] ++ lit "body" in
  Spec.parse text = (Some (lit "Title"), lit "body")
  /\ title (parseGeneratedContent Sample.toLowerCase text Sample.request) = None
  /\ content (parseGeneratedContent Sample.toLowerCase text Sample.request)
     = lit "Title" ++ [LF] ++ lit "body".
Proof. vm_compute. done. Qed.

(** ** Hashtags *)

Lemma removeFirst_absent (s : jsstring) :
  forallb (fun c => negb (c =? HASH)%N) s = true -> removeFirst HASH s = s.
Proof.
  induction s as [|c s IH]; [done|].
  cbn. intros [Hc Hs]%andb_true_iff.
  destruct (c =? HASH)%N; [done|]. by rewrite IH.
Qed.

Lemma removeFirst_leading (s : jsstring) :
  forallb (fun c => negb (c =? HASH)%N) (tail s) = true ->
  removeFirst HASH s = Spec.stripLeadingHash s.
Proof.
  destruct s as [|c s]; [done|].
  cbn. intros Hs. destruct (c =? HASH)%N; [done|]. by rewrite removeFirst_absent.
Qed.

Lemma generateHashtags_run (provider : Provider) (content : jsstring)
    (count : option Z) (issued : list jsstring) :
  generateHashtags provider content count issued
  = (match
       firstCandidateText
         (provider (length issued) (hashtagPrompt content (default 10%Z count)))
     with
     | Some generatedText =>
         Fulfilled (parseHashtags generatedText (default 10%Z count))
     | None => Fulfilled []
     end,
     issued ++ [hashtagPrompt content (default 10%Z count)]).
Proof. reflexivity. Qed.

(** C7, as the code has it.  On a response with a text, [generateHashtags]
    returns the tokens between commas, each trimmed and without its first
    hash symbol (wherever in the token it is), the empty ones dropped, cut
    by [slice(0, N)].  For [N >= 0] the list has at most [N] elements, and
    when no token has a hash symbol after its first character the result
    is the one of stripping leading hash symbols.  The example of the
    claim holds. *)
Theorem generateHashtags_tokens (provider : Provider) (content : jsstring)
    (count : Z) (issued : list jsstring) (text : jsstring) :
  firstCandidateText (provider (length issued) (hashtagPrompt content count))
  = Some text ->
  (generateHashtags provider content (Some count) issued).1
  = Fulfilled
      (slice0 count
         (List.filter (fun tag => 0 <? length tag)
            (List.map (fun tag => removeFirst HASH (trim tag)) (split COMMA text))))
  /\ ((0 <= count)%Z ->
      length (parseHashtags text count) <= Z.to_nat count
      /\ ((forall tag, tag ∈ split COMMA text ->
             forallb (fun c => negb (c =? HASH)%N) (tail (trim tag)) = true) ->
          parseHashtags text count = Spec.hashtags text count))
  /\ parseHashtags (lit "#sale, #deals , #retail") 2 = [lit "sale"; lit "deals"].
Proof.
  intros Htext. rewrite generateHashtags_run. cbn [from_option id fst]. rewrite Htext.
  split_and!; [done| |done].
  intros Hcount. split; [by apply length_slice0|].
  intros Hlead. unfold parseHashtags, Spec.hashtags, slice0.
  destruct (Z.ltb_spec count 0); [lia|]. do 2 f_equal.
  apply map_ext_in. intros tag Htag. apply removeFirst_leading, Hlead.
  by apply list_elem_of_In.
Qed.

Lemma generateHashtags_tokens_witness :
  (generateHashtags (Sample.answering (lit "#sale, #deals , #retail"))
     (lit "Spring sale in all our shops") (Some 2%Z) []).1
  = Fulfilled [lit "sale"; lit "deals"].
Proof.
  apply (generateHashtags_tokens
           (Sample.answering (lit "#sale, #deals , #retail"))
           (lit "Spring sale in all our shops") 2 []
           (lit "#sale, #deals , #retail")).
  reflexivity.
Defined.

(** C7 as worded fails: a hash symbol inside a token is removed too. *)
Lemma generateHashtags_inner_hash :
  (generateHashtags (Sample.answering (lit "c#sharp, dev")) (lit "Our new course")
     (Some 2%Z) []).1
  = Fulfilled [lit "csharp"; lit "dev"]
  /\ Spec.hashtags (lit "c#sharp, dev") 2 = [lit "c#sharp"; lit "dev"].
Proof. vm_compute. done. Qed.

(** ** Provider failure *)

(** C8. When the provider call rejects, or resolves without a usable
    candidate text, [generateContent] rejects with its failure, and so do
    [improvContent] and, for a failing call of the batch,
    [generateMultipleVariations]; [generateHashtags] fulfils with the empty
    list, and never rejects. *)
Theorem provider_failure_paths (toLowerCase : jsstring -> jsstring)
    (provider : Provider) (issued : list jsstring) :
  (forall request,
     responseText provider request (length issued) = None ->
     (generateContent toLowerCase provider request issued).1
     = Rejected (mkError (lit "Failed to generate content. Please try again.")))
  /\ (forall originalContent improvementType audience,
        responseText provider
          (improvementRequest originalContent improvementType audience)
          (length issued) = None ->
        (improvContent toLowerCase provider originalContent improvementType
           audience issued).1
        = Rejected (mkError (lit "Failed to generate content. Please try again.")))
  /\ (forall request count completion i,
        completion ≡ₚ seq 0 (Z.to_nat (default 3%Z count)) ->
        i < Z.to_nat (default 3%Z count) ->
        responseText provider (variationRequest request) (length issued + i) = None ->
        (generateMultipleVariations toLowerCase provider request count completion
           issued).1
        = Rejected (mkError (lit "Failed to generate content variations.")))
  /\ (forall content count,
        firstCandidateText
          (provider (length issued) (hashtagPrompt content (default 10%Z count)))
        = None ->
        (generateHashtags provider content count issued).1 = Fulfilled [])
  /\ (forall content count,
        exists tags, (generateHashtags provider content count issued).1 = Fulfilled tags)
  /\ (firstCandidateText ProviderRejects = None
      /\ firstCandidateText (ProviderResolves []) = None
      /\ (forall others, firstCandidateText (ProviderResolves ([] :: others)) = None)
      /\ (forall parts others,
            firstCandidateText (ProviderResolves ((None :: parts) :: others)) = None)).
Proof.
  split_and!; try done.
  - intros request Hnone. rewrite generateContent_run. cbn [fst].
    unfold singleShot. by rewrite Hnone.
  - intros originalContent improvementType audience Hnone.
    change (improvContent toLowerCase provider originalContent improvementType
              audience)
      with (generateContent toLowerCase provider
              (improvementRequest originalContent improvementType audience)).
    rewrite generateContent_run. cbn [fst]. unfold singleShot. by rewrite Hnone.
  - intros request count completion i Hperm Hi Hnone.
    by apply (variations_rejected _ _ _ _ _ _ i).
  - intros content count Hnone. rewrite generateHashtags_run. cbn [fst].
    by rewrite Hnone.
  - intros content count. rewrite generateHashtags_run. cbn [fst].
    destruct (firstCandidateText _); by eexists.
Qed.

Lemma provider_failure_paths_witness :
  (generateContent Sample.toLowerCase Sample.failing Sample.request []).1
  = Rejected (mkError (lit "Failed to generate content. Please try again."))
  /\ (generateHashtags Sample.failing (lit "Spring sale in all our shops") None []).1
     = Fulfilled [].
Proof.
  destruct (provider_failure_paths Sample.toLowerCase Sample.failing [])
    as (Hcontent & _ & _ & Hhashtags & _).
  split.
  - apply (Hcontent Sample.request). reflexivity.
  - apply (Hhashtags (lit "Spring sale in all our shops") None). reflexivity.
Defined.

(** ** Prompt builder *)

(** C9, as the code has it.  The system instruction is the role
    description of the content type, then the tone clause when a tone is
    present, then the audience clause when the audience is present and not
    the empty string, then the closing instruction; the user instruction
    is as worded.  The text a single-shot call submits is made of the two
    and of nothing else: it is the same for every provider and every
    history of calls. *)
Theorem prompt_builder_exact (toLowerCase : jsstring -> jsstring)
    (provider : Provider) (request : GenerateContentRequest)
    (issued : list jsstring) :
  buildSystemPrompt request
  = contentTypeInstructions (contentType request)
      ++ match tone request with
         | Some t => lit " " ++ toneInstructions t
         | None => []
         end
      ++ match targetAudience request with
         | Some (c :: audience) =>
             lit " Target audience: " ++ (c :: audience) ++ lit "."
         | _ => []
         end
      ++ lit " Provide high-quality, original content that is engaging and relevant."
  /\ buildUserPrompt request = Spec.userInstruction request
  /\ (targetAudience request <> Some [] ->
      buildSystemPrompt request = Spec.systemInstruction request)
  /\ (generateContent toLowerCase provider request issued).2
     = issued ++ [buildSystemPrompt request ++ [LF; LF] ++ buildUserPrompt request].
Proof.
  split_and!.
  - unfold buildSystemPrompt.
    destruct (tone request), (targetAudience request) as [[|c audience]|];
      cbn [truthy default from_option id];
      rewrite <- ?app_assoc, ?app_nil_l; reflexivity.
  - unfold buildUserPrompt, Spec.userInstruction.
    destruct (length' request), (keywords request) as [[|kw kws]|];
      rewrite <- ?app_assoc, ?app_nil_r; reflexivity.
  - intros Haud. unfold buildSystemPrompt, Spec.systemInstruction.
    destruct (tone request), (targetAudience request) as [[|c audience]|];
      try done; cbn [truthy default from_option id];
      rewrite <- ?app_assoc, ?app_nil_l; reflexivity.
  - reflexivity.
Qed.

Lemma prompt_builder_exact_witness :
  buildSystemPrompt (Sample.withAudience (lit "students"))
  = Spec.systemInstruction (Sample.withAudience (lit "students")).
Proof.
  apply (prompt_builder_exact Sample.toLowerCase Sample.failing
           (Sample.withAudience (lit "students")) []).
  discriminate.
Defined.

(** C9 as worded fails: an audience that is present but empty gets no
    audience clause. *)
Lemma buildSystemPrompt_empty_audience :
  buildSystemPrompt (Sample.withAudience [])
  = lit "You are an email marketing specialist. Create compelling email content that drives opens, clicks, and conversions. Use a casual, conversational tone. Provide high-quality, original content that is engaging and relevant."
  /\ Spec.systemInstruction (Sample.withAudience [])
     = lit "You are an email marketing specialist. Create compelling email content that drives opens, clicks, and conversions. Use a casual, conversational tone. Target audience: . Provide high-quality, original content that is engaging and relevant."
  /\ buildSystemPrompt (Sample.withAudience [])
     <> Spec.systemInstruction (Sample.withAudience []).
Proof. split_and!; [vm_compute; done..|]. vm_compute. discriminate. Qed.

(** ** Variation batches *)

(** C10. The service puts no bound on [count]: with a count of 0 it issues
    no call and fulfils with the empty list, whatever completion order is
    supplied; with any count it issues that many calls (none for a negative
    one), and when all of them yield a text it fulfils with that many
    suggestions.  The bounds 2 and 5 are those of the route's schema. *)
Theorem variations_count_unchecked (toLowerCase : jsstring -> jsstring)
    (provider : Provider) (request : GenerateContentRequest)
    (completion : list nat) (issued : list jsstring) :
  generateMultipleVariations toLowerCase provider request (Some 0%Z) completion
    issued
  = (Fulfilled [], issued)
  /\ (forall count,
        (generateMultipleVariations toLowerCase provider request (Some count)
           completion issued).2
        = issued ++ replicate (Z.to_nat count)
                      (submittedText (variationRequest request)))
  /\ (forall count,
        completion ≡ₚ seq 0 (Z.to_nat count) ->
        (forall i, i < Z.to_nat count ->
           is_Some (responseText provider (variationRequest request)
                      (length issued + i))) ->
        exists results,
          (generateMultipleVariations toLowerCase provider request (Some count)
             completion issued).1 = Fulfilled results
          /\ length results = Z.to_nat count)
  /\ (forall count,
        validateCount (Some count) = Some count <-> (2 <= count <= 5)%Z)
  /\ validateCount (Some 0%Z) = None.
Proof.
  split_and!.
  - rewrite generateMultipleVariations_run.
    change (Z.to_nat (default 3%Z (Some 0%Z))) with 0. cbn [seq replicate].
    by rewrite fmap_nil, Promise_all_nil, app_nil_r.
  - intros count. by rewrite generateMultipleVariations_run.
  - intros count Hperm Hall. eexists. split.
    + by apply (variations_fulfilled _ _ _ (Some count)).
    + unfold singles. by rewrite length_imap, length_fmap, length_seq.
  - intros count. unfold validateCount.
    destruct (Z.leb_spec 2 count), (Z.leb_spec count 5); cbn; split;
      (done || lia).
  - reflexivity.
Qed.

Lemma variations_count_unchecked_witness :
  exists results,
    (generateMultipleVariations Sample.toLowerCase (Sample.answering Sample.greatNews)
       Sample.request (Some 7%Z) [6; 5; 4; 3; 2; 1; 0] []).1 = Fulfilled results
    /\ length results = 7.
Proof.
  apply (variations_count_unchecked Sample.toLowerCase
           (Sample.answering Sample.greatNews) Sample.request
           [6; 5; 4; 3; 2; 1; 0] [] ).
  - symmetry. apply (Permutation_rev [0; 1; 2; 3; 4; 5; 6]).
  - intros i _. by eexists.
Defined.

Lemma singles_lookup (toLowerCase : jsstring -> jsstring) (provider : Provider)
    (request : GenerateContentRequest) (first n i : nat) (single : ContentSuggestion) :
  singles toLowerCase provider request first n !! i = Some single ->
  i < n
  /\ single
     = parseGeneratedContent toLowerCase
         (default [] (responseText provider (variationRequest request) (first + i)))
         (variationRequest request).
Proof.
  unfold singles. rewrite list_lookup_fmap.
  destruct (seq 0 n !! i) as [k|] eqn:Hk; [|done].
  apply lookup_seq in Hk as [-> Hi]. cbn. intros [= <-]. done.
Qed.

(** What a fulfilled batch holds at every index. *)
Lemma variations_lookup (toLowerCase : jsstring -> jsstring) (provider : Provider)
    (request : GenerateContentRequest) (count : option Z) (completion : list nat)
    (issued : list jsstring) (results : list ContentSuggestion)
    (i : nat) (result : ContentSuggestion) :
  completion ≡ₚ seq 0 (Z.to_nat (default 3%Z count)) ->
  (generateMultipleVariations toLowerCase provider request count completion issued).1
  = Fulfilled results ->
  results !! i = Some result ->
  exists text,
    i < Z.to_nat (default 3%Z count)
    /\ responseText provider (variationRequest request) (length issued + i)
       = Some text
    /\ result
       = decay i (parseGeneratedContent toLowerCase text (variationRequest request)).
Proof.
  intros Hperm Hres Hi.
  pose proof (variations_fulfilled_inv _ _ _ _ _ _ _ Hperm Hres) as Hall.
  rewrite (variations_fulfilled _ _ _ _ _ _ Hperm Hall) in Hres.
  injection Hres as <-. rewrite list_lookup_imap in Hi.
  destruct (singles _ _ _ _ _ !! i) as [single|] eqn:Hs; [|done].
  apply singles_lookup in Hs as [Hlt ->]. injection Hi as <-.
  destruct (Hall i Hlt) as [text Htext]. exists text. by rewrite Htext.
Qed.

(** C5. In a fulfilled batch, whatever the order in which the calls
    complete, the result at index [i] is the suggestion of the call issued
    as number [i] with its confidence multiplied by [1 - i * 0.1], and
    nothing else changed.  For a count of 3 and single-shot scores all
    equal to [c] the confidences are [c], [c * 0.9] and [c * 0.8], in that
    order (binary64 products). *)
Theorem variation_decay_by_issuance_order (toLowerCase : jsstring -> jsstring)
    (provider : Provider) (request : GenerateContentRequest) (count : option Z)
    (completion : list nat) (issued : list jsstring)
    (results : list ContentSuggestion) :
  completion ≡ₚ seq 0 (Z.to_nat (default 3%Z count)) ->
  (generateMultipleVariations toLowerCase provider request count completion issued).1
  = Fulfilled results ->
  (forall i result,
     results !! i = Some result ->
     exists single,
       singleShot toLowerCase provider (variationRequest request) (length issued + i)
       = Fulfilled single
       /\ confidence result
          = (confidence single * (1 - Number_of_nat i * 0.1))%float
       /\ content result = content single
       /\ title result = title single)
  /\ (forall c,
        Z.to_nat (default 3%Z count) = 3 ->
        (forall i single,
           singleShot toLowerCase provider (variationRequest request)
             (length issued + i) = Fulfilled single ->
           confidence single = c) ->
        confidence <$> results = [c; (c * 0.9)%float; (c * 0.8)%float]).
Proof.
  intros Hperm Hres. split.
  - intros i result Hi.
    destruct (variations_lookup _ _ _ _ _ _ _ _ _ Hperm Hres Hi)
      as (text & _ & Htext & ->).
    eexists. unfold singleShot. rewrite Htext. done.
  - intros c Hthree Hsame.
    pose proof (variations_fulfilled_inv _ _ _ _ _ _ _ Hperm Hres) as Hall.
    rewrite (variations_fulfilled _ _ _ _ _ _ Hperm Hall) in Hres.
    injection Hres as <-. rewrite Hthree in *.
    assert (forall i, i < 3 ->
              confidence
                (parseGeneratedContent toLowerCase
                   (default [] (responseText provider (variationRequest request)
                                  (length issued + i)))
                   (variationRequest request)) = c) as Hc.
    { intros i Hi. apply (Hsame i). unfold singleShot.
      by destruct (Hall i Hi) as [text ->]. }
    unfold singles. cbn [seq fmap list_fmap imap]. unfold compose.
    cbn [decay confidence]. rewrite !Hc by lia.
    destruct decay_multipliers as (-> & -> & ->).
    by rewrite float_mul_1_r.
Qed.

Lemma variation_decay_by_issuance_order_witness :
  confidence
    <$> imap decay
          (singles Sample.toLowerCase (Sample.answering Sample.greatNews)
             Sample.request 0 3)
  = [0.8%float; (0.8 * 0.9)%float; (0.8 * 0.8)%float].
Proof.
  apply (variation_decay_by_issuance_order Sample.toLowerCase
           (Sample.answering Sample.greatNews) Sample.request (Some 3%Z)
           [2; 0; 1] []).
  - change (seq 0 (Z.to_nat (default 3%Z (Some 3%Z)))) with [0; 1; 2].
    apply Permutation_cons_app with (l1 := [0; 1]) (l2 := []).
    reflexivity.
  - vm_compute. reflexivity.
  - reflexivity.
  - intros i single [= <-]. vm_compute. reflexivity.
Defined.

(** C6. A batch whose calls have all completed fulfils if and only if
    every call yielded a text, and then with exactly as many suggestions
    as calls; if one call fails the batch rejects with the failure of the
    variations, and no suggestion is returned. *)
Theorem variations_all_or_nothing (toLowerCase : jsstring -> jsstring)
    (provider : Provider) (request : GenerateContentRequest) (count : option Z)
    (completion : list nat) (issued : list jsstring) :
  completion ≡ₚ seq 0 (Z.to_nat (default 3%Z count)) ->
  ((exists i, i < Z.to_nat (default 3%Z count)
              /\ responseText provider (variationRequest request)
                   (length issued + i) = None) ->
   (generateMultipleVariations toLowerCase provider request count completion
      issued).1
   = Rejected (mkError (lit "Failed to generate content variations.")))
  /\ ((exists results,
         (generateMultipleVariations toLowerCase provider request count completion
            issued).1 = Fulfilled results)
      <-> (forall i, i < Z.to_nat (default 3%Z count) ->
             is_Some (responseText provider (variationRequest request)
                        (length issued + i))))
  /\ (forall results,
        (generateMultipleVariations toLowerCase provider request count completion
           issued).1 = Fulfilled results ->
        length results = Z.to_nat (default 3%Z count)).
Proof.
  intros Hperm. split_and!.
  - intros (i & Hi & Hnone). by apply (variations_rejected _ _ _ _ _ _ i).
  - split.
    + intros [results Hres]. by eapply variations_fulfilled_inv.
    + intros Hall. eexists. by apply variations_fulfilled.
  - intros results Hres.
    pose proof (variations_fulfilled_inv _ _ _ _ _ _ _ Hperm Hres) as Hall.
    rewrite (variations_fulfilled _ _ _ _ _ _ Hperm Hall) in Hres.
    injection Hres as <-. unfold singles.
    by rewrite length_imap, length_fmap, length_seq.
Qed.

Lemma variations_all_or_nothing_witness :
  (generateMultipleVariations Sample.toLowerCase
     (Sample.failingAt 1 Sample.greatNews) Sample.request (Some 3%Z) [2; 0; 1] []).1
  = Rejected (mkError (lit "Failed to generate content variations.")).
Proof.
  apply (variations_all_or_nothing Sample.toLowerCase
           (Sample.failingAt 1 Sample.greatNews) Sample.request (Some 3%Z)
           [2; 0; 1] []).
  - change (seq 0 (Z.to_nat (default 3%Z (Some 3%Z)))) with [0; 1; 2].
    apply Permutation_cons_app with (l1 := [0; 1]) (l2 := []).
    reflexivity.
  - exists 1. split; [vm_compute; lia|reflexivity].
Defined.

(** ** The invariant of the suggestions *)






(** * Further properties of the service *)

(** ** Strings, continued *)

Section MoreStrings.

Implicit Types s t sub : jsstring.

Lemma length_split sep s :
  length (split sep s) = S (length (List.filter (fun c => (c =? sep)%N) s)).
Proof.
  induction s as [|c s IH]; [done|].
  cbn [split List.filter]. destruct (c =? sep)%N; cbn [length]; [by rewrite IH|].
  pose proof (split_not_nil sep s).
  destruct (split sep s) as [|piece pieces]; [done|]. by rewrite <- IH.
Qed.

(** The pieces of a split do not hold the separator. *)
Lemma split_pieces_free sep s piece :
  piece ∈ split sep s -> sep ∉ piece.
Proof.
  revert piece. induction s as [|c s IH]; intros piece.
  - cbn. intros ->%list_elem_of_singleton. apply not_elem_of_nil.
  - cbn [split]. destruct (N.eqb_spec c sep) as [->|Hne].
    + intros [->|Hin]%elem_of_cons; [apply not_elem_of_nil|by apply IH].
    + pose proof (split_not_nil sep s).
      destruct (split sep s) as [|first pieces]; [done|].
      intros [->|Hin]%elem_of_cons.
      * intros [?|Hc]%elem_of_cons; [done|]. revert Hc. apply IH. left.
      * apply IH. by right.
Qed.

(** Trimming at the start leaves a suffix. *)
Lemma trimStart_suffix s : exists pre, s = pre ++ trimStart s.
Proof.
  induction s as [|c s [pre IH]]; [by exists []|].
  cbn. destruct (isWhiteSpace c); [|by exists []].
  exists (c :: pre). cbn. by rewrite <- IH.
Qed.

(** Trimming at the end leaves a prefix. *)
Lemma trimEnd_prefix s : exists post, s = trimEnd s ++ post.
Proof.
  destruct (trimStart_suffix (rev s)) as [pre Hpre].
  exists (rev pre). unfold trimEnd.
  rewrite <- rev_app_distr, <- Hpre. by rewrite rev_involutive.
Qed.

Lemma elem_of_trim c s : c ∈ trim s -> c ∈ s.
Proof.
  unfold trim. intros Hc.
  destruct (trimEnd_prefix (trimStart s)) as [post Hpost].
  destruct (trimStart_suffix s) as [pre Hpre].
  rewrite Hpre. apply elem_of_app. right.
  rewrite Hpost. apply elem_of_app. by left.
Qed.

Lemma length_trim s : length (trim s) <= length s.
Proof.
  unfold trim.
  destruct (trimEnd_prefix (trimStart s)) as [post Hpost].
  destruct (trimStart_suffix s) as [pre Hpre].
  rewrite Hpre at 2. rewrite Hpost at 2. rewrite !length_app. lia.
Qed.

Lemma trimStart_fixed s :
  match s with c :: _ => isWhiteSpace c = false | [] => True end ->
  trimStart s = s.
Proof. destruct s as [|c s]; [done|]. cbn. by intros ->. Qed.

Lemma trimStart_head_fixed s :
  match trimStart s with c :: _ => isWhiteSpace c = false | [] => True end.
Proof.
  destruct (trimStart s) as [|c t] eqn:Hs; [done|]. by eapply trimStart_head.
Qed.

(** A string that does not start with white space keeps its start under
    trimming at the end. *)
Lemma trimEnd_head s :
  match s with c :: _ => isWhiteSpace c = false | [] => True end ->
  match trimEnd s with c :: _ => isWhiteSpace c = false | [] => True end.
Proof.
  intros Hs. destruct (trimEnd_prefix s) as [post Hpost].
  destruct (trimEnd s) as [|c t]; [done|].
  rewrite Hpost in Hs. done.
Qed.

Lemma trimEnd_invariant s : trimEnd (trimEnd s) = trimEnd s.
Proof.
  unfold trimEnd. by rewrite rev_involutive, trimStart_invariant.
Qed.

(** Trimming twice is trimming once. *)
Lemma trim_idempotent s : trim (trim s) = trim s.
Proof.
  unfold trim at 1.
  rewrite (trimStart_fixed (trim s)).
  - unfold trim. apply trimEnd_invariant.
  - unfold trim. apply trimEnd_head, trimStart_head_fixed.
Qed.

Lemma capital_not_white c :
  ((65 <=? c) && (c <=? 90))%N = true -> isWhiteSpace c = false.
Proof.
  intros [H1 H2]%andb_true_iff. apply N.leb_le in H1, H2.
  unfold isWhiteSpace.
  repeat match goal with
         | |- context [(?a <=? ?b)%N] => destruct (N.leb_spec a b); try lia
         | |- context [(?a =? ?b)%N] => destruct (N.eqb_spec a b); try lia
         end; done.
Qed.

(** Trimming a string that starts with a capital keeps the capital. *)
Lemma trim_capital s :
  testLeadingCapital s = true -> testLeadingCapital (trim s) = true.
Proof.
  destruct s as [|c s]; [done|]. cbn [testLeadingCapital]. intros Hc.
  pose proof (capital_not_white c Hc) as Hw.
  unfold trim. rewrite (trimStart_fixed (c :: s)) by done.
  destruct (trimEnd_prefix (c :: s)) as [post Hpost].
  destruct (trimEnd (c :: s)) as [|d t] eqn:Ht.
  - assert (trim (c :: s) = []) as Hnil.
    { unfold trim. by rewrite (trimStart_fixed (c :: s)). }
    apply trim_nil in Hnil. cbn in Hnil. by rewrite Hw in Hnil.
  - injection Hpost as -> _. done.
Qed.

Lemma startsWith_app s t : startsWith (s ++ t) s = true.
Proof.
  induction s as [|c s IH]; [by destruct t|].
  cbn [app startsWith]. by rewrite N.eqb_refl, IH.
Qed.

Lemma includes_app_r s t sub : includes t sub = true -> includes (s ++ t) sub = true.
Proof.
  intros Ht. induction s as [|c s IH]; [done|].
  cbn [app includes]. rewrite IH. apply orb_true_r.
Qed.

(** A string includes each of its substrings. *)
Lemma includes_infix pre sub post : includes (pre ++ sub ++ post) sub = true.
Proof.
  apply includes_app_r. destruct sub as [|c sub]; [by destruct post|].
  cbn [app includes].
  change (c :: sub ++ post) with ((c :: sub) ++ post).
  by rewrite startsWith_app.
Qed.

Lemma join_infix sep pieces piece :
  piece ∈ pieces -> exists pre post, join sep pieces = pre ++ piece ++ post.
Proof.
  induction pieces as [|p ps IH]; [by intros ?%elem_of_nil|].
  intros [->|Hin]%elem_of_cons.
  - destruct ps as [|q ps].
    + exists [], []. cbn. by rewrite app_nil_r.
    + exists [], (sep ++ join sep (q :: ps)). done.
  - destruct ps as [|q ps]; [by apply elem_of_nil in Hin|].
    destruct (IH Hin) as (pre & post & Heq).
    exists (p ++ sep ++ pre), post.
    change (join sep (p :: q :: ps)) with (p ++ sep ++ join sep (q :: ps)).
    rewrite Heq. by rewrite <- !app_assoc.
Qed.

Lemma elem_of_removeFirst pat c s : c ∈ removeFirst pat s -> c ∈ s.
Proof.
  induction s as [|d s IH]; [done|].
  cbn. destruct (d =? pat)%N; [by right|].
  intros [->|Hc]%elem_of_cons; [left|right; by apply IH].
Qed.

Lemma elem_of_slice0 {A} (stop : Z) (l : list A) x : x ∈ slice0 stop l -> x ∈ l.
Proof.
  unfold slice0. destruct (stop <? 0)%Z;
    intros (i & Hi)%list_elem_of_lookup; apply lookup_take_Some in Hi as [Hi _];
    by eapply list_elem_of_lookup_2.
Qed.

End MoreStrings.

(** ** Confidence scorer, continued *)

(** X1. The word count of [calculateConfidence] is the number of single
    spaces of the content plus one: an empty content has one word, and
    each space of a run of spaces adds a word. *)
Theorem wordCount_spaces (content : jsstring) :
  wordCount content = S (spaces content) /\ 1 <= wordCount content.
Proof.
  unfold wordCount, spaces. rewrite length_split. split; [done|lia].
Qed.

Lemma score_monotone_enumerated :
  forallb (fun fits : bool * bool =>
    forallb (fun kn =>
      forallb (fun matched =>
                 (score fits.1 (Some (matched, kn.2)) <=? score fits.2 (Some kn))%float)
        (seq 0 (S kn.1)))
      (coverages 20))
    [(false, false); (false, true); (true, true)] = true.
Proof. vm_compute. reflexivity. Qed.

Lemma score_monotone fits fits' matched matched' total :
  (fits = true -> fits' = true) ->
  1 <= total <= 20 -> matched <= matched' <= total ->
  (score fits (Some (matched, total)) <=? score fits' (Some (matched', total)))%float
  = true.
Proof.
  intros Hf Ht Hm. pose proof score_monotone_enumerated as Henum.
  rewrite forallb_forall in Henum.
  specialize (Henum (fits, fits')
                ltac:(destruct fits, fits'; cbn; tauto || by specialize (Hf eq_refl))).
  rewrite forallb_forall in Henum.
  specialize (Henum (matched', total)
                ltac:(apply list_elem_of_In, elem_of_coverages; lia)).
  rewrite forallb_forall in Henum. apply (Henum matched), in_seq. cbn. lia.
Qed.

Lemma score_top_enumerated :
  forallb (fun kn => PrimFloat.Leibniz.eqb (score true (Some (kn.2, kn.2))) 1)
    (coverages 20) = true.
Proof. vm_compute. reflexivity. Qed.

(** X2. For a request with 1 to 20 keywords, a content that matches at
    least as many keywords as another, and fits the requested length
    whenever the other does, gets at least the confidence of the other. *)
Theorem confidence_monotone_in_matches (toLowerCase : jsstring -> jsstring)
    (request : GenerateContentRequest) (kws : list jsstring)
    (content content' : jsstring) :
  keywords request = Some kws ->
  1 <= length kws <= 20 ->
  (Spec.inBand (length' request) (wordCount content) = true ->
   Spec.inBand (length' request) (wordCount content') = true) ->
  keywordMatches toLowerCase content kws <= keywordMatches toLowerCase content' kws ->
  (calculateConfidence toLowerCase content request
   <=? calculateConfidence toLowerCase content' request)%float = true.
Proof.
  intros Hk Hlen Hfit Hm. rewrite !calculateConfidence_score.
  unfold coverage. rewrite Hk. apply score_monotone; [done..|].
  split; [done|]. apply List.filter_length_le.
Qed.

Lemma confidence_monotone_in_matches_witness :
  (calculateConfidence Sample.toLowerCase (lit "winter coats")
     (Sample.withKeywords [lit "sale"; lit "spring"])
   <=? calculateConfidence Sample.toLowerCase (lit "Spring SALE today")
         (Sample.withKeywords [lit "sale"; lit "spring"]))%float = true.
Proof.
  apply (confidence_monotone_in_matches Sample.toLowerCase
           (Sample.withKeywords [lit "sale"; lit "spring"])
           [lit "sale"; lit "spring"]).
  - reflexivity.
  - cbn. lia.
  - vm_compute. discriminate.
  - vm_compute. lia.
Defined.

(** X3. For a request with 1 to 20 keywords, a content that fits the
    requested length and holds every keyword scores exactly 1. *)
Theorem confidence_top (toLowerCase : jsstring -> jsstring)
    (request : GenerateContentRequest) (kws : list jsstring) (content : jsstring) :
  keywords request = Some kws ->
  1 <= length kws <= 20 ->
  Spec.inBand (length' request) (wordCount content) = true ->
  keywordMatches toLowerCase content kws = length kws ->
  calculateConfidence toLowerCase content request = 1%float.
Proof.
  intros Hk Hlen Hfit Hall. pose proof score_top_enumerated as Henum.
  rewrite forallb_forall in Henum.
  rewrite calculateConfidence_score, Hfit. unfold coverage. rewrite Hk, Hall.
  specialize (Henum (length kws, length kws)
                ltac:(apply list_elem_of_In, elem_of_coverages; lia)).
  by apply FloatAxioms.Leibniz.eqb_spec in Henum.
Qed.

Lemma confidence_top_witness :
  calculateConfidence Sample.toLowerCase (lit "Spring SALE today")
    (Sample.withAudience (lit "students")) = 1%float.
Proof.
  apply (confidence_top Sample.toLowerCase (Sample.withAudience (lit "students"))
           [lit "sale"; lit "spring"] (lit "Spring SALE today")).
  - reflexivity.
  - cbn. lia.
  - reflexivity.
  - reflexivity.
Defined.

(** ** Output parser, continued *)

(** X4. Whatever the text, the content of a parsed suggestion is already
    trimmed; a title, when there is one, is trimmed, starts with a letter
    from A to Z and is under 100 code units long; and the parser fills
    neither the hashtags nor the alternatives. *)
Theorem parseGeneratedContent_shape (toLowerCase : jsstring -> jsstring)
    (text : jsstring) (request : GenerateContentRequest) :
  let parsed := parseGeneratedContent toLowerCase text request in
  trim (content parsed) = content parsed
  /\ (forall t, title parsed = Some t ->
        trim t = t /\ testLeadingCapital t = true /\ length t < 100)
  /\ hashtags parsed = None
  /\ alternatives parsed = None.
Proof.
  intros parsed. subst parsed. destruct (titled text) eqn:Ht.
  - rewrite parseGeneratedContent_titled by done.
    cbv [content title hashtags alternatives].
    split_and!; [apply trim_idempotent| |done..].
    intros t [= <-]. apply titled_iff in Ht as (_ & Hlen & Hcap).
    split_and!; [apply trim_idempotent|by apply trim_capital|].
    pose proof (length_trim (hd [] (keptLines text))). lia.
  - rewrite parseGeneratedContent_untitled by done.
    cbv [content title hashtags alternatives].
    split_and!; [apply trim_idempotent|done..].
Qed.

Section Paragraphs.

Implicit Types (s t : jsstring) (pieces : list jsstring).

Lemma split_app_sep sep s t :
  sep ∉ s -> split sep (s ++ sep :: t) = s :: split sep t.
Proof.
  induction s as [|c s IH]; intros Hs.
  - cbn [app split]. by rewrite N.eqb_refl.
  - cbn [app split]. destruct (N.eqb_spec c sep) as [->|Hne].
    + exfalso. apply Hs. left.
    + rewrite IH; [done|]. intros Hin. apply Hs. by right.
Qed.

Lemma split_free sep s : sep ∉ s -> split sep s = [s].
Proof.
  intros Hs. apply split_single, forallb_forall. intros c Hc%list_elem_of_In.
  destruct (N.eqb_spec c sep) as [->|]; done.
Qed.

Lemma trimStart_app s t : blank s = false -> trimStart (s ++ t) = trimStart s ++ t.
Proof.
  induction s as [|c s IH]; [done|].
  cbn. destruct (isWhiteSpace c); [|done]. apply IH.
Qed.

Lemma trimEnd_app s t : blank t = false -> trimEnd (s ++ t) = s ++ trimEnd t.
Proof.
  intros Ht. unfold trimEnd.
  rewrite rev_app_distr, trimStart_app by (by rewrite blank_rev).
  by rewrite rev_app_distr, rev_involutive.
Qed.

Lemma blank_trimEnd s : blank (trimEnd s) = blank s.
Proof. unfold trimEnd. by rewrite blank_rev, trimStart_blank, blank_rev. Qed.

Lemma elem_of_trimStart c s : c ∈ trimStart s -> c ∈ s.
Proof.
  destruct (trimStart_suffix s) as [pre Hpre]. intros Hc.
  rewrite Hpre. apply elem_of_app. by right.
Qed.

Lemma elem_of_trimEnd c s : c ∈ trimEnd s -> c ∈ s.
Proof.
  destruct (trimEnd_prefix s) as [post Hpost]. intros Hc.
  rewrite Hpost. apply elem_of_app. by left.
Qed.

(** The lines of joined lines, trimmed at the end, are the lines. *)
Lemma lines_of_trimEnd_join pieces line :
  pieces <> [] ->
  (forall piece, piece ∈ pieces -> blank piece = false /\ LF ∉ piece) ->
  line ∈ split LF (trimEnd (join [LF] pieces)) -> blank line = false.
Proof.
  induction pieces as [|p [|q ps] IH]; intros Hne Hpieces; [done| |].
  - cbn [join]. destruct (Hpieces p) as [Hb Hfree]; [left|].
    rewrite split_free by (by intros ?%elem_of_trimEnd).
    intros ->%list_elem_of_singleton. by rewrite blank_trimEnd.
  - change (join [LF] (p :: q :: ps)) with (p ++ [LF] ++ join [LF] (q :: ps)).
    destruct (Hpieces p) as [Hb Hfree]; [left|].
    assert (blank (join [LF] (q :: ps)) = false) as Hjoin.
    { apply (blank_join_false _ _ q); [left|]. apply Hpieces. right. left. }
    rewrite trimEnd_app by (by rewrite blank_app, Hjoin, andb_false_r).
    rewrite trimEnd_app by done.
    cbn [app]. rewrite split_app_sep by done.
    intros [->|Hin]%elem_of_cons; [done|].
    apply IH; [done| |done]. intros piece Hin'. apply Hpieces. by right.
Qed.

Lemma lines_of_trim_join pieces line :
  pieces <> [] ->
  (forall piece, piece ∈ pieces -> blank piece = false /\ LF ∉ piece) ->
  line ∈ split LF (trim (join [LF] pieces)) -> blank line = false.
Proof.
  destruct pieces as [|p [|q ps]]; intros Hne Hpieces; [done| |].
  - cbn [join]. destruct (Hpieces p) as [Hb Hfree]; [left|].
    rewrite split_free by (by intros ?%elem_of_trim).
    intros ->%list_elem_of_singleton. by rewrite blank_trim.
  - change (join [LF] (p :: q :: ps)) with (p ++ [LF] ++ join [LF] (q :: ps)).
    destruct (Hpieces p) as [Hb Hfree]; [left|].
    assert (blank (join [LF] (q :: ps)) = false) as Hjoin.
    { apply (blank_join_false _ _ q); [left|]. apply Hpieces. right. left. }
    unfold trim. rewrite trimStart_app by done.
    rewrite trimEnd_app by (by rewrite blank_app, Hjoin, andb_false_r).
    rewrite trimEnd_app by done.
    cbn [app]. rewrite split_app_sep by (by intros ?%elem_of_trimStart).
    intros [->|Hin]%elem_of_cons; [by rewrite trimStart_blank|].
    revert Hin. apply lines_of_trimEnd_join; [done|].
    intros piece Hin'. apply Hpieces. by right.
Qed.

Lemma keptLines_free text line : line ∈ keptLines text -> LF ∉ line.
Proof.
  unfold keptLines. rewrite list_elem_of_In, filter_In.
  intros [Hin _]. by apply (split_pieces_free LF text), list_elem_of_In.
Qed.

End Paragraphs.

(** X9. When the parser finds a title, no line of the content is blank:
    the blank lines between the paragraphs of the text are dropped (without
    a title the content is the trimmed text, blank lines included). *)
Theorem titled_content_has_no_blank_line (toLowerCase : jsstring -> jsstring)
    (text : jsstring) (request : GenerateContentRequest) (line : jsstring) :
  titled text = true ->
  line ∈ split LF (content (parseGeneratedContent toLowerCase text request)) ->
  blank line = false.
Proof.
  intros Ht. rewrite parseGeneratedContent_titled by done. cbv [content].
  pose proof (keptLines_not_blank text) as Hblank.
  pose proof (keptLines_free text) as Hfree.
  unfold titled in Ht.
  destruct (keptLines text) as [|first [|second rest]]; [done..|].
  cbn [tail]. apply lines_of_trim_join; [done|].
  intros piece Hin. split; [apply Hblank|apply Hfree]; by right.
Qed.

Lemma titled_content_has_no_blank_line_witness :
  blank (lit "Second paragraph.") = false.
Proof.
  apply (titled_content_has_no_blank_line Sample.toLowerCase
           (lit "Great News" ++ [LF] ++ lit "First paragraph." ++ [LF; LF]
              ++ lit "Second paragraph.")
           Sample.request).
  - reflexivity.
  - vm_compute. right. left.
Defined.

(** ** Hashtags, continued *)

(** X5. Whatever the provider does and whatever the count, no hashtag that
    [generateHashtags] returns is empty and none holds a comma. *)
Theorem generateHashtags_tags (provider : Provider) (content : jsstring)
    (count : option Z) (issued : list jsstring) (tags : list jsstring)
    (tag : jsstring) :
  (generateHashtags provider content count issued).1 = Fulfilled tags ->
  tag ∈ tags ->
  tag <> [] /\ COMMA ∉ tag.
Proof.
  rewrite generateHashtags_run. cbn [fst].
  destruct (firstCandidateText _) as [text|]; intros [= <-];
    [|by intros ?%elem_of_nil].
  unfold parseHashtags. intros Htag%elem_of_slice0.
  apply list_elem_of_In, filter_In in Htag as [Htag Hlen].
  apply in_map_iff in Htag as (raw & <- & Hraw).
  split; [by intros Hnil; rewrite Hnil in Hlen|].
  intros Hcomma%elem_of_removeFirst%elem_of_trim.
  by apply (split_pieces_free COMMA text raw); [apply list_elem_of_In|].
Qed.

Lemma generateHashtags_tags_witness :
  lit "deals" <> [] /\ COMMA ∉ lit "deals".
Proof.
  apply (generateHashtags_tags (Sample.answering (lit "#sale, #deals , #retail"))
           (lit "Spring sale in all our shops") (Some 2%Z) []
           [lit "sale"; lit "deals"]).
  - reflexivity.
  - right. left.
Defined.

(** ** Prompt builder, continued *)

Lemma buildUserPrompt_worded (request : GenerateContentRequest) :
  buildUserPrompt request = Spec.userInstruction request.
Proof.
  unfold buildUserPrompt, Spec.userInstruction.
  destruct (length' request), (keywords request) as [[|kw kws]|];
    rewrite <- ?app_assoc, ?app_nil_r; reflexivity.
Qed.

Lemma submittedText_prompt (request : GenerateContentRequest) :
  exists pre post, submittedText request = pre ++ prompt request ++ post.
Proof.
  unfold submittedText. rewrite buildUserPrompt_worded. unfold Spec.userInstruction.
  eexists (buildSystemPrompt request ++ [LF; LF] ++ lit "Create "
             ++ contentTypeName (contentType request)
             ++ lit " content based on: "), _.
  rewrite <- !app_assoc. reflexivity.
Qed.

(** X6. The text a single-shot call submits holds the prompt of the
    request as it was given, and each keyword of a keyword list. *)
Theorem submittedText_includes (request : GenerateContentRequest) :
  includes (submittedText request) (prompt request) = true
  /\ (forall kws kw,
        keywords request = Some kws -> kw ∈ kws ->
        includes (submittedText request) kw = true).
Proof.
  unfold submittedText. rewrite buildUserPrompt_worded. unfold Spec.userInstruction.
  assert (forall s pre sub post, s = pre ++ sub ++ post -> includes s sub = true)
    as Hinfix by (intros s pre sub post ->; apply includes_infix).
  split.
  - eapply (Hinfix _ (buildSystemPrompt request ++ [LF; LF] ++ lit "Create "
                        ++ contentTypeName (contentType request)
                        ++ lit " content based on: ")).
    rewrite <- !app_assoc. reflexivity.
  - intros kws kw Hk Hkw. rewrite Hk.
    destruct kws as [|kw0 kws]; [by apply elem_of_nil in Hkw|]. cbv beta iota.
    destruct (join_infix (lit ", ") _ _ Hkw) as (pre & post & ->).
    eapply (Hinfix _ (buildSystemPrompt request ++ [LF; LF] ++ lit "Create "
                        ++ contentTypeName (contentType request)
                        ++ lit " content based on: " ++ prompt request
                        ++ match length' request with
                           | Some l => lit " Length: " ++ lengthInstructions l ++ lit "."
                           | None => []
                           end
                        ++ lit " Include these keywords naturally: " ++ pre)
              kw (post ++ lit ".")).
    rewrite <- !app_assoc. reflexivity.
Qed.

Lemma submittedText_includes_witness :
  includes (submittedText (Sample.withAudience (lit "students"))) (lit "spring") = true.
Proof.
  apply (submittedText_includes (Sample.withAudience (lit "students")))
    with (kws := [lit "sale"; lit "spring"]).
  - reflexivity.
  - right. left.
Defined.

(** ** Content improvement *)

(** X7. [improvContent] issues one call, whose text holds the original
    content, and every suggestion it returns has a confidence of exactly
    0.8, whatever the text of the provider: its request has neither a
    length nor keywords. *)
Theorem improvContent_confidence (toLowerCase : jsstring -> jsstring)
    (provider : Provider) (originalContent : jsstring)
    (improvementType : ImprovementType) (audience : option jsstring)
    (issued : list jsstring) :
  (exists text,
     (improvContent toLowerCase provider originalContent improvementType audience
        issued).2 = issued ++ [text]
     /\ includes text originalContent = true)
  /\ (forall s,
        (improvContent toLowerCase provider originalContent improvementType
           audience issued).1 = Fulfilled s ->
        confidence s = 0.8%float).
Proof.
  change (improvContent toLowerCase provider originalContent improvementType
            audience)
    with (generateContent toLowerCase provider
            (improvementRequest originalContent improvementType audience)).
  rewrite generateContent_run. cbn [fst snd]. split.
  - eexists. split; [done|].
    pose proof (submittedText_prompt
                  (improvementRequest originalContent improvementType audience))
      as (pre & post & ->).
    cbn [improvementRequest prompt].
    rewrite !app_assoc, <- (app_assoc _ originalContent post).
    apply includes_infix.
  - intros s. unfold singleShot. destruct (responseText _ _ _) as [text|]; [|done].
    intros [= <-]. rewrite parseGeneratedContent_confidence.
    rewrite calculateConfidence_score. reflexivity.
Qed.

(** ** Variation batches, continued *)

(** X8. What a variation batch returns, and the calls it issues, do not
    depend on the order in which the calls complete: neither the
    suggestions and their decay, nor the rejection. *)
Theorem variations_completion_order (toLowerCase : jsstring -> jsstring)
    (provider : Provider) (request : GenerateContentRequest) (count : option Z)
    (completion completion' : list nat) (issued : list jsstring) :
  completion ≡ₚ seq 0 (Z.to_nat (default 3%Z count)) ->
  completion' ≡ₚ seq 0 (Z.to_nat (default 3%Z count)) ->
  generateMultipleVariations toLowerCase provider request count completion issued
  = generateMultipleVariations toLowerCase provider request count completion' issued.
Proof.
  intros Hperm Hperm'.
  apply injective_projections.
  - destruct (decide (Forall
                        (fun i => is_Some (responseText provider
                                             (variationRequest request)
                                             (length issued + i)))
                        (seq 0 (Z.to_nat (default 3%Z count))))) as [Hall|Hsome].
    + rewrite !variations_fulfilled; try done;
        intros i Hi; apply (proj1 (Forall_forall _ _) Hall), elem_of_seq; lia.
    + apply not_Forall_Exists in Hsome; [|apply _].
      apply Exists_exists in Hsome as (i & Hi%elem_of_seq & Hnone).
      assert (responseText provider (variationRequest request) (length issued + i)
              = None) as Hnone'.
      { destruct (responseText _ _ _) eqn:Hr; [|done]. exfalso. apply Hnone. by eexists. }
      rewrite !(variations_rejected _ _ _ _ _ _ i); done || lia.
  - by rewrite !generateMultipleVariations_run.
Qed.

Lemma variations_completion_order_witness :
  generateMultipleVariations Sample.toLowerCase (Sample.failingAt 1 Sample.greatNews)
    Sample.request None [2; 0; 1] []
  = generateMultipleVariations Sample.toLowerCase (Sample.failingAt 1 Sample.greatNews)
      Sample.request None [0; 1; 2] [].
Proof.
  apply (variations_completion_order Sample.toLowerCase
           (Sample.failingAt 1 Sample.greatNews) Sample.request None
           [2; 0; 1] [0; 1; 2] []).
  - change (seq 0 (Z.to_nat (default 3%Z None))) with [0; 1; 2].
    apply Permutation_cons_app with (l1 := [0; 1]) (l2 := []).
    reflexivity.
  - reflexivity.
Defined.

Lemma decay_order_enumerated :
  forallb (fun fits =>
    forallb (fun cov =>
      forallb (fun j =>
        forallb (fun i =>
                   (score fits cov * (1 - Number_of_nat j * 0.1)
                    <=? score fits cov * (1 - Number_of_nat i * 0.1))%float)
          (seq 0 (S j))
        && (negb (j =? 10)
            || PrimFloat.Leibniz.eqb (score fits cov * (1 - Number_of_nat j * 0.1)) 0))
        (seq 0 11))
      (None :: (Some <$> coverages 20)))
    [true; false] = true.
Proof. vm_compute. reflexivity. Qed.

Lemma decay_order fits cov i j :
  match cov with
  | Some (matched, total) => 1 <= total <= 20 /\ matched <= total
  | None => True
  end ->
  i <= j <= 10 ->
  (score fits cov * (1 - Number_of_nat j * 0.1)
   <=? score fits cov * (1 - Number_of_nat i * 0.1))%float = true
  /\ (j = 10 -> (score fits cov * (1 - Number_of_nat j * 0.1))%float = 0%float).
Proof.
  intros Hcov Hij. pose proof decay_order_enumerated as Henum.
  rewrite forallb_forall in Henum.
  specialize (Henum fits ltac:(destruct fits; cbn; tauto)).
  rewrite forallb_forall in Henum.
  assert (In cov (None :: (Some <$> coverages 20))) as Hin.
  { destruct cov as [[matched total]|]; [right|by left].
    apply list_elem_of_In, list_elem_of_fmap. eexists. split; [done|].
    apply elem_of_coverages; tauto. }
  specialize (Henum cov Hin). rewrite forallb_forall in Henum.
  specialize (Henum j ltac:(apply in_seq; lia)).
  apply andb_true_iff in Henum as [Horder Hzero]. split.
  - rewrite forallb_forall in Horder. apply Horder, in_seq. lia.
  - intros ->. cbn in Hzero. by apply FloatAxioms.Leibniz.eqb_spec in Hzero.
Qed.

(** X15. In a fulfilled batch for a request with no keyword list or 1 to 20
    keywords, of two calls that got the same text the one issued later, up
    to index 10, never has the higher confidence; at index 10 the
    confidence is 0. *)
Theorem variation_confidence_order (toLowerCase : jsstring -> jsstring)
    (provider : Provider) (request : GenerateContentRequest) (count : option Z)
    (completion : list nat) (issued : list jsstring)
    (results : list ContentSuggestion) (i j : nat) (a b : ContentSuggestion)
    (text : jsstring) :
  keywordsWithinLimit request = true ->
  completion ≡ₚ seq 0 (Z.to_nat (default 3%Z count)) ->
  (generateMultipleVariations toLowerCase provider request count completion issued).1
  = Fulfilled results ->
  i <= j <= 10 ->
  results !! i = Some a ->
  results !! j = Some b ->
  responseText provider (variationRequest request) (length issued + i) = Some text ->
  responseText provider (variationRequest request) (length issued + j) = Some text ->
  (confidence b <=? confidence a)%float = true
  /\ (j = 10 -> confidence b = 0%float).
Proof.
  intros Hlimit Hperm Hres Hij Ha Hb Hti Htj.
  destruct (variations_lookup _ _ _ _ _ _ _ _ _ Hperm Hres Ha) as (ta & _ & Hta & ->).
  destruct (variations_lookup _ _ _ _ _ _ _ _ _ Hperm Hres Hb) as (tb & _ & Htb & ->).
  rewrite Hti in Hta. rewrite Htj in Htb. injection Hta as <-. injection Htb as <-.
  cbn [decay confidence].
  rewrite parseGeneratedContent_confidence, calculateConfidence_score.
  apply decay_order; [|done].
  by apply (coverage_within_limit toLowerCase _ (variationRequest request)).
Qed.

Lemma variation_confidence_order_witness :
  (0.8 * (1 - Number_of_nat 2 * 0.1) <=? 0.8 * (1 - Number_of_nat 0 * 0.1))%float
  = true.
Proof.
  apply (variation_confidence_order Sample.toLowerCase
           (Sample.answering Sample.greatNews) Sample.request (Some 3%Z)
           [2; 0; 1] []
           (imap decay (singles Sample.toLowerCase (Sample.answering Sample.greatNews)
                          Sample.request 0 3))
           0 2
           (decay 0 (parseGeneratedContent Sample.toLowerCase Sample.greatNews
                       (variationRequest Sample.request)))
           (decay 2 (parseGeneratedContent Sample.toLowerCase Sample.greatNews
                       (variationRequest Sample.request)))
           Sample.greatNews).
  - reflexivity.
  - change (seq 0 (Z.to_nat (default 3%Z (Some 3%Z)))) with [0; 1; 2].
    apply Permutation_cons_app with (l1 := [0; 1]) (l2 := []).
    reflexivity.
  - vm_compute. reflexivity.
  - lia.
  - reflexivity.
  - reflexivity.
  - reflexivity.
  - reflexivity.
Defined.

(** ** The handlers *)

Section Handlers.

Variable toLowerCase : jsstring -> jsstring.
Variable provider : Provider.
Variable Body : Type.
Variable validateGenerate : Body -> jsstring + GenerateContentRequest.
Variable validateVariations : Body -> jsstring + GenerateContentRequest * Z.
Variable validateImprove :
  Body -> jsstring + jsstring * ImprovementType * option jsstring.
Variable validateHashtags : Body -> jsstring + jsstring * Z.
Variable validatePostGenerate : Body -> jsstring + GenerateContentRequest * Z.

Implicit Types (req : HttpRequest Body) (issued : list jsstring).

Lemma bind_run {A B} (m : Calls A) (k : A -> Calls B) issued :
  bind m k issued = k (m issued).1 (m issued).2.
Proof. unfold bind. by destruct (m issued). Qed.

Ltac answer :=
  intros ? [= <-]; cbn [status unauthorized badRequest serverError ok];
  split_and!; [tauto| split; [lia|done] | intros [|]; done || lia].

Ltac guard_handler h validate :=
  intros req issued; unfold h;
  destruct (truthy (userId req)) eqn:Hauth; cbn [negb];
  [split; [done|]
  |split; [done|unfold ret; cbn [fst snd]; answer]];
  destruct (validate (body req)) as [message|value];
  [unfold ret; cbn [fst snd]; answer|].

Lemma ai_generate_guarded :
  guarded (ai_generate toLowerCase provider Body validateGenerate).
Proof.
  guard_handler ai_generate validateGenerate.
  rewrite bind_run. unfold ret. cbn [fst snd].
  destruct (generateContent _ _ _ _).1; [done|answer..].
Qed.

Lemma ai_variations_guarded completion :
  guarded (ai_variations toLowerCase provider Body validateVariations completion).
Proof.
  guard_handler ai_variations validateVariations.
  destruct value as [requestData count].
  rewrite bind_run. unfold ret. cbn [fst snd].
  destruct (generateMultipleVariations _ _ _ _ _ _).1; [done|answer..].
Qed.

Lemma ai_improve_guarded :
  guarded (ai_improve toLowerCase provider Body validateImprove).
Proof.
  guard_handler ai_improve validateImprove.
  destruct value as [[content improvementType] audience].
  rewrite bind_run. unfold ret. cbn [fst snd].
  destruct (improvContent _ _ _ _ _ _).1; [done|answer..].
Qed.

Lemma ai_hashtags_guarded :
  guarded (ai_hashtags provider Body validateHashtags).
Proof.
  guard_handler ai_hashtags validateHashtags.
  destruct value as [content count].
  rewrite bind_run. unfold ret. cbn [fst snd].
  destruct (generateHashtags _ _ _ _).1; [done|answer..].
Qed.

Lemma posts_generate_guarded completion :
  guarded (posts_generate toLowerCase provider Body validatePostGenerate completion).
Proof.
  guard_handler posts_generate validatePostGenerate.
  destruct value as [value variations].
  rewrite bind_run. unfold ret. cbn [fst snd].
  match goal with |- context [(?m issued).1] => destruct (m issued).1 end;
    [done|answer..].
Qed.

Lemma posts_hashtags_guarded :
  guarded (posts_hashtags provider Body validateHashtags).
Proof.
  guard_handler posts_hashtags validateHashtags.
  destruct value as [content count].
  rewrite bind_run. unfold ret. cbn [fst snd].
  destruct (generateHashtags _ _ _ _).1; [done|answer..].
Qed.

Lemma posts_improve_guarded :
  guarded (posts_improve toLowerCase provider Body validateImprove).
Proof.
  guard_handler posts_improve validateImprove.
  destruct value as [[content improvementType] audience].
  rewrite bind_run. unfold ret. cbn [fst snd].
  destruct (improvContent _ _ _ _ _ _).1; [done|answer..].
Qed.

(** X10. Each of the seven handlers that reach the service answers an
    unauthenticated request with 401 and only then, answers with status
    200, 400, 401 or 500, and has issued no call to the provider when it
    answers 401 or 400. *)
Theorem handlers_guarded (completion : list nat)
    (h : HttpRequest Body -> Calls (option Response)) :
  h ∈ handlers toLowerCase provider Body validateGenerate validateVariations
        validateImprove validateHashtags validatePostGenerate completion ->
  guarded h.
Proof.
  unfold handlers. rewrite !elem_of_cons, elem_of_nil.
  intros [->|[->|[->|[->|[->|[->|[->|[]]]]]]]].
  - apply ai_generate_guarded.
  - apply ai_variations_guarded.
  - apply ai_improve_guarded.
  - apply ai_hashtags_guarded.
  - apply posts_generate_guarded.
  - apply posts_hashtags_guarded.
  - apply posts_improve_guarded.
Qed.

(** X11. The two hashtag handlers answer every request and never with
    status 500: for an authenticated request with a valid body the answer
    is 200, with the hashtags the service returned (none when the provider
    failed) and their number as the total, which is at most the count when
    the count is not negative. *)
Theorem hashtag_handlers_never_fail req issued :
  (exists r,
     (ai_hashtags provider Body validateHashtags req issued).1 = Some r
     /\ status r <> 500)
  /\ (exists r,
        (posts_hashtags provider Body validateHashtags req issued).1 = Some r
        /\ status r <> 500)
  /\ (forall content count,
        truthy (userId req) = true ->
        validateHashtags (body req) = inr (content, count) ->
        exists tags,
          (ai_hashtags provider Body validateHashtags req issued).1
          = Some (ok (HashtagsData tags (length tags) (Some content)))
          /\ (posts_hashtags provider Body validateHashtags req issued).1
             = Some (ok (HashtagsData tags (length tags) None))
          /\ (firstCandidateText
                (provider (length issued) (hashtagPrompt content count)) = None ->
              tags = [])
          /\ ((0 <= count)%Z -> length tags <= Z.to_nat count)).
Proof.
  unfold ai_hashtags, posts_hashtags.
  destruct (truthy (userId req)); cbn [negb];
    [|split_and!; [by eexists..|done]].
  destruct (validateHashtags (body req)) as [message|[content count]];
    [split_and!; [by eexists..|done]|].
  rewrite !bind_run, generateHashtags_run. unfold ret. cbn [fst snd from_option id].
  destruct (firstCandidateText _) as [text|] eqn:Htext.
  - split_and!; [by eexists..|].
    intros ? ? _ [= <- <-]. rewrite Htext. eexists. split_and!; [done..|].
    apply length_slice0.
  - split_and!; [by eexists..|].
    intros ? ? _ [= <- <-]. rewrite Htext. eexists. split_and!; [done..|].
    cbn. lia.
Qed.

(** X12. For an authenticated request with a valid body, the generation
    handler issues exactly one call, with the text built from the validated
    value; it answers 200 with the parse of the text of the provider, the
    prompt and the content type, or 500 with its fixed message when the
    provider yields no text. *)
Theorem ai_generate_answer req issued value :
  truthy (userId req) = true ->
  validateGenerate (body req) = inr value ->
  ai_generate toLowerCase provider Body validateGenerate req issued
  = (Some match responseText provider value (length issued) with
          | Some text =>
              ok (SuggestionData (parseGeneratedContent toLowerCase text value)
                    (prompt value) (contentType value))
          | None =>
              serverError (lit "Failed to generate content. Please try again.")
          end,
     issued ++ [submittedText value]).
Proof.
  intros Hauth Hvalid. unfold ai_generate. rewrite Hauth, Hvalid. cbn [negb].
  rewrite bind_run, generateContent_run. unfold ret, singleShot. cbn [fst snd].
  by destruct (responseText _ _ _).
Qed.

(** X13. For an authenticated request with a valid body and a count, the
    variations handler issues as many calls as the count, all with the text
    of the variation request.  Once all have completed it answers 200 if
    and only if every call yielded a text, and then the suggestions and the
    total it reports are as many as the count, next to the prompt as the
    client sent it; otherwise it answers 500. *)
Theorem ai_variations_answer completion req issued requestData count :
  truthy (userId req) = true ->
  validateVariations (body req) = inr (requestData, count) ->
  completion ≡ₚ seq 0 (Z.to_nat count) ->
  (ai_variations toLowerCase provider Body validateVariations completion req
     issued).2
  = issued ++ replicate (Z.to_nat count) (submittedText (variationRequest requestData))
  /\ exists r,
       (ai_variations toLowerCase provider Body validateVariations completion req
          issued).1 = Some r
       /\ (status r = 200 \/ status r = 500)
       /\ (status r = 200
           <-> forall i, i < Z.to_nat count ->
                 is_Some (responseText provider (variationRequest requestData)
                            (length issued + i)))
       /\ (status r = 200 ->
           exists suggestions,
             json r
             = Success (SuggestionsData suggestions (Z.to_nat count)
                          (Some (prompt requestData, contentType requestData)))
             /\ length suggestions = Z.to_nat count).
Proof.
  intros Hauth Hvalid Hperm. unfold ai_variations. rewrite Hauth, Hvalid. cbn [negb].
  rewrite bind_run. unfold ret. cbn [fst snd].
  split; [by rewrite generateMultipleVariations_run|].
  destruct (decide (Forall
                      (fun i => is_Some (responseText provider
                                           (variationRequest requestData)
                                           (length issued + i)))
                      (seq 0 (Z.to_nat count)))) as [Hall|Hsome].
  - assert (forall i, i < Z.to_nat count ->
              is_Some (responseText provider (variationRequest requestData)
                         (length issued + i))) as Hall'.
    { intros i Hi. apply (proj1 (Forall_forall _ _) Hall), elem_of_seq. lia. }
    rewrite (variations_fulfilled _ _ _ (Some count)) by done.
    assert (length (imap decay (singles toLowerCase provider requestData
                                  (length issued) (Z.to_nat count)))
            = Z.to_nat count) as Hlen.
    { unfold singles. cbn [from_option id].
      by rewrite length_imap, length_fmap, length_seq. }
    eexists. split; [done|]. cbn [status json ok].
    split_and!; [by left|done|]. intros _.
    exists (imap decay (singles toLowerCase provider requestData (length issued)
                          (Z.to_nat count))).
    split; [|exact Hlen]. cbn [from_option id]. by rewrite Hlen.
  - apply not_Forall_Exists in Hsome; [|apply _].
    apply Exists_exists in Hsome as (i & Hi%elem_of_seq & Hnone).
    assert (responseText provider (variationRequest requestData) (length issued + i)
            = None) as Hnone'.
    { destruct (responseText _ _ _) eqn:Hr; [|done]. exfalso. apply Hnone. by eexists. }
    rewrite (variations_rejected _ _ _ (Some count) _ _ i) by (done || cbn; lia).
    eexists. split; [done|]. cbn [status json serverError].
    split_and!; [by right| |done].
    split; [done|]. intros Hall. destruct (Hall i) as [text Htext]; [lia|].
    rewrite Htext in Hnone'. done.
Qed.

(** X14. The generation handler of the posts takes the single-shot path
    for a number of variations of 1 or less: one call with the text of the
    request as it is, and on success one suggestion with its confidence
    undecayed and a total of 1.  For a larger number it issues that many
    calls with the text of the variation request. *)
Theorem posts_generate_paths completion req issued value variations :
  truthy (userId req) = true ->
  validatePostGenerate (body req) = inr (value, variations) ->
  ((variations <= 1)%Z ->
   posts_generate toLowerCase provider Body validatePostGenerate completion req
     issued
   = (Some match responseText provider value (length issued) with
           | Some text =>
               ok (SuggestionsData [parseGeneratedContent toLowerCase text value]
                     1 None)
           | None =>
               serverError (lit "Failed to generate content. Please try again.")
           end,
      issued ++ [submittedText value]))
  /\ ((1 < variations)%Z ->
      (posts_generate toLowerCase provider Body validatePostGenerate completion req
         issued).2
      = issued ++ replicate (Z.to_nat variations)
                    (submittedText (variationRequest value))).
Proof.
  intros Hauth Hvalid. unfold posts_generate. rewrite Hauth, Hvalid. cbn [negb].
  split; intros Hv.
  - destruct (Z.ltb_spec 1 variations); [lia|].
    rewrite !bind_run, generateContent_run. unfold ret, singleShot. cbn [fst snd].
    by destruct (responseText _ _ _).
  - destruct (Z.ltb_spec 1 variations); [|lia].
    rewrite bind_run. unfold ret. cbn [fst snd].
    by rewrite generateMultipleVariations_run.
Qed.

(** X16. For an authenticated request with a valid body, the two
    improvement handlers issue one call for the improvement request and
    answer alike, but for the audience that only the handler of ai.ts
    sends back: 500 with their fixed message when the provider yields no
    text, and otherwise 200 with the content as it was sent and the parsed
    improvement, whose confidence is 0.8. *)
Theorem improve_handlers_answer req issued content improvementType audience :
  truthy (userId req) = true ->
  validateImprove (body req) = inr (content, improvementType, audience) ->
  exists answer : option ContentSuggestion,
    ai_improve toLowerCase provider Body validateImprove req issued
    = (Some match answer with
            | Some improved =>
                ok (ImprovementData content improved improvementType (Some audience))
            | None =>
                serverError (lit "Failed to improve content. Please try again.")
            end,
       issued ++ [submittedText (improvementRequest content improvementType audience)])
    /\ posts_improve toLowerCase provider Body validateImprove req issued
       = (Some match answer with
               | Some improved =>
                   ok (ImprovementData content improved improvementType None)
               | None =>
                   serverError (lit "Failed to improve content. Please try again.")
               end,
          issued ++ [submittedText (improvementRequest content improvementType audience)])
    /\ answer
       = (fun text =>
            parseGeneratedContent toLowerCase text
              (improvementRequest content improvementType audience))
           <$> responseText provider
                 (improvementRequest content improvementType audience)
                 (length issued)
    /\ (forall improved, answer = Some improved -> confidence improved = 0.8%float).
Proof.
  intros Hauth Hvalid. unfold ai_improve, posts_improve.
  rewrite Hauth, Hvalid. cbn [negb].
  change (improvContent toLowerCase provider content improvementType audience)
    with (generateContent toLowerCase provider
            (improvementRequest content improvementType audience)).
  rewrite !bind_run, generateContent_run. unfold ret, singleShot. cbn [fst snd].
  destruct (responseText _ _ _) as [text|].
  - eexists (Some _). split_and!; [done..|].
    intros improved [= <-].
    rewrite parseGeneratedContent_confidence, calculateConfidence_score.
    reflexivity.
  - exists None. split_and!; done.
Qed.

End Handlers.

Module SampleRoutes.

(** A client whose body is already the validated request. *)
Definition authenticated : HttpRequest unit :=
  {| userId := Some (lit "user-1"); body := tt |}.

Definition anonymous : HttpRequest unit := {| userId := None; body := tt |}.

Definition valid {A} (value : A) : unit -> jsstring + A := fun _ => inr value.

End SampleRoutes.

Lemma handlers_guarded_witness :
  ai_hashtags Sample.failing unit
    (SampleRoutes.valid (lit "Spring sale in all our shops", 3%Z))
    SampleRoutes.anonymous []
  = (Some unauthorized, []).
Proof.
  apply (handlers_guarded Sample.toLowerCase Sample.failing unit
           (SampleRoutes.valid Sample.request)
           (SampleRoutes.valid (Sample.request, 3%Z))
           (SampleRoutes.valid (Sample.tenWords, engagement, None))
           (SampleRoutes.valid (lit "Spring sale in all our shops", 3%Z))
           (SampleRoutes.valid (Sample.request, 1%Z))
           [0; 1; 2]).
  - do 3 right. left.
  - reflexivity.
Defined.

Lemma hashtag_handlers_never_fail_witness :
  exists tags,
    (ai_hashtags Sample.failing unit
       (SampleRoutes.valid (lit "Spring sale in all our shops", 3%Z))
       SampleRoutes.authenticated []).1
    = Some (ok (HashtagsData tags (length tags)
                  (Some (lit "Spring sale in all our shops"))))
    /\ (posts_hashtags Sample.failing unit
          (SampleRoutes.valid (lit "Spring sale in all our shops", 3%Z))
          SampleRoutes.authenticated []).1
       = Some (ok (HashtagsData tags (length tags) None))
    /\ (firstCandidateText
          (Sample.failing (length (@nil jsstring))
             (hashtagPrompt (lit "Spring sale in all our shops") 3)) = None ->
        tags = [])
    /\ ((0 <= 3)%Z -> length tags <= Z.to_nat 3).
Proof.
  apply (hashtag_handlers_never_fail Sample.failing unit
           (SampleRoutes.valid (lit "Spring sale in all our shops", 3%Z))
           SampleRoutes.authenticated []); reflexivity.
Defined.

Lemma ai_generate_answer_witness :
  ai_generate Sample.toLowerCase (Sample.answering Sample.greatNews) unit
    (SampleRoutes.valid Sample.request) SampleRoutes.authenticated []
  = (Some (ok (SuggestionData
                 (parseGeneratedContent Sample.toLowerCase Sample.greatNews
                    Sample.request)
                 (prompt Sample.request) (contentType Sample.request))),
     [submittedText Sample.request]).
Proof.
  apply (ai_generate_answer Sample.toLowerCase (Sample.answering Sample.greatNews)
           unit (SampleRoutes.valid Sample.request) SampleRoutes.authenticated []
           Sample.request); reflexivity.
Defined.

Lemma ai_variations_answer_witness :
  (ai_variations Sample.toLowerCase (Sample.failingAt 1 Sample.greatNews) unit
     (SampleRoutes.valid (Sample.request, 3%Z)) [2; 0; 1]
     SampleRoutes.authenticated []).2
  = replicate 3 (submittedText (variationRequest Sample.request)).
Proof.
  apply (ai_variations_answer Sample.toLowerCase
           (Sample.failingAt 1 Sample.greatNews) unit
           (SampleRoutes.valid (Sample.request, 3%Z)) [2; 0; 1]
           SampleRoutes.authenticated [] Sample.request 3%Z).
  - reflexivity.
  - reflexivity.
  - change (seq 0 (Z.to_nat 3)) with [0; 1; 2].
    apply Permutation_cons_app with (l1 := [0; 1]) (l2 := []).
    reflexivity.
Defined.

Lemma posts_generate_paths_witness :
  (posts_generate Sample.toLowerCase (Sample.answering Sample.greatNews) unit
     (SampleRoutes.valid (Sample.request, 4%Z)) [0; 1; 2; 3]
     SampleRoutes.authenticated []).2
  = replicate 4 (submittedText (variationRequest Sample.request)).
Proof.
  apply (posts_generate_paths Sample.toLowerCase (Sample.answering Sample.greatNews)
           unit (SampleRoutes.valid (Sample.request, 4%Z)) [0; 1; 2; 3]
           SampleRoutes.authenticated [] Sample.request 4%Z).
  - reflexivity.
  - reflexivity.
  - lia.
Defined.

Lemma improve_handlers_answer_witness :
  exists answer : option ContentSuggestion,
    ai_improve Sample.toLowerCase (Sample.answering Sample.greatNews) unit
      (SampleRoutes.valid (Sample.tenWords, clarity, None))
      SampleRoutes.authenticated []
    = (Some match answer with
            | Some improved =>
                ok (ImprovementData Sample.tenWords improved clarity (Some None))
            | None =>
                serverError (lit "Failed to improve content. Please try again.")
            end,
       [] ++ [submittedText (improvementRequest Sample.tenWords clarity None)])
    /\ posts_improve Sample.toLowerCase (Sample.answering Sample.greatNews) unit
         (SampleRoutes.valid (Sample.tenWords, clarity, None))
         SampleRoutes.authenticated []
       = (Some match answer with
               | Some improved =>
                   ok (ImprovementData Sample.tenWords improved clarity None)
               | None =>
                   serverError (lit "Failed to improve content. Please try again.")
               end,
          [] ++ [submittedText (improvementRequest Sample.tenWords clarity None)])
    /\ answer
       = (fun text =>
            parseGeneratedContent Sample.toLowerCase text
              (improvementRequest Sample.tenWords clarity None))
           <$> responseText (Sample.answering Sample.greatNews)
                 (improvementRequest Sample.tenWords clarity None)
                 (length (@nil jsstring))
    /\ (forall improved, answer = Some improved -> confidence improved = 0.8%float).
Proof.
  apply (improve_handlers_answer Sample.toLowerCase
           (Sample.answering Sample.greatNews) unit
           (SampleRoutes.valid (Sample.tenWords, clarity, None))
           SampleRoutes.authenticated [] Sample.tenWords clarity None);
    reflexivity.
Defined.
